(** * OctoApp plugin: the webcam helper (src/octoapp/webcamhelper.py)

    A shallow embedding of [WebcamHelper] and of the Python operations it
    relies on, followed by the properties of the helper that the
    specification states.

    Conventions of the embedding.
    - Python [str] values that name things (URLs, camera names, header
      keys) are [string]: sequences of 8-bit characters, read as the code
      points 0..255.  [Py.lower] is [str.lower] on that range.
    - Text obtained by decoding bytes is a list of code points ([ustr]),
      because [bytes.decode] can produce any code point.
    - [bytes] / [bytearray] values are [list byte]; indexing out of range
      raises [IndexError] as in Python.
    - Python integers are [Z]; positions inside a buffer are [nat].
    - An exception is a value of [Exn]; code that can raise returns an
      [Outcome].  [None] is [None] of an [option].                        *)

From Stdlib Require Import ZArith NArith String Ascii List Lia Bool.
From Stdlib Require Import Strings.Byte DecimalString DecimalZ.
From stdpp Require Import base option list gmap strings.

Local Open Scope string_scope.
Local Open Scope Z_scope.

(** ** Exceptions and outcomes *)

Inductive Exn : Type :=
| AttributeError
| IndexError
| KeyError
| TypeError
| ValueError
| ConnectionError (msg : string)
| Exception (msg : string).

Inductive Outcome (A : Type) : Type :=
| Ret (a : A)
| Raise (e : Exn).
Arguments Ret {A} a.
Arguments Raise {A} e.

Global Instance Outcome_ret : MRet Outcome := @Ret.
Global Instance Outcome_bind : MBind Outcome :=
  λ A B f m, match m with Ret a => f a | Raise e => Raise e end.

Definition raises {A} (o : Outcome A) : Prop := ∃ e, o = Raise e.

(** ** Python's [str] operations on 8-bit strings *)

Module Py.

(** [str.lower] on one character: A..Z and the Latin-1 capitals
    (0xC0..0xDE without the multiplication sign 0xD7) move up by 32. *)
Definition lower_char (c : ascii) : ascii :=
  let n := N_of_ascii c in
  if ((65 <=? n) && (n <=? 90) || (192 <=? n) && (n <=? 222) && negb (n =? 215))%N
  then ascii_of_N (n + 32)
  else c.

Fixpoint lower (s : string) : string :=
  match s with
  | EmptyString => EmptyString
  | String c s' => String (lower_char c) (lower s')
  end.

(** [s.find(sub, start)]: the lowest index at or after [start] where
    [sub] occurs, or -1. *)
Definition find (s sub : string) (start : nat) : Z :=
  match String.index start sub s with
  | Some i => Z.of_nat i
  | None => -1
  end.

Definition len (s : string) : Z := Z.of_nat (String.length s).

(** The slices [s[:stop]] and [s[start:]]; a negative bound counts
    from the end, as in Python. *)
Definition norm_index (s : string) (i : Z) : nat :=
  if i <? 0 then Z.to_nat (len s + i) else Z.to_nat i.

Definition slice_to (s : string) (stop : Z) : string :=
  substring 0 (norm_index s stop) s.

Definition slice_from (s : string) (start : Z) : string :=
  let n := norm_index s start in
  substring n (String.length s - n) s.

(** [s[i]] for [i >= 0]. *)
Definition getitem (s : string) (i : Z) : Outcome ascii :=
  match String.get (norm_index s i) s with
  | Some c => Ret c
  | None => Raise IndexError
  end.

End Py.

(** ** URL quirk normalizers *)

(** [streamUrl] is [None] or a string; the result is [None] for "no
    change" or the replacement URL. *)
Definition DetectCameraStreamerWebRTCStreamUrlAndTranslate
    (streamUrl : option string) : Outcome (option string) :=
  match streamUrl with
  | None => Ret None
  | Some streamUrl =>
      let streamUrlLower := Py.lower streamUrl in
      let webRtcLocation := Py.find streamUrlLower "/webrtc" 0 in
      if webRtcLocation =? -1 then Ret None
      else
        let forwardSlashAfterWebrtc :=
          Py.find streamUrlLower "/" (Z.to_nat (webRtcLocation + 1)) in
        if negb (forwardSlashAfterWebrtc =? -1) then Ret None
        else Ret (Some (Py.slice_to streamUrl webRtcLocation ++ "/stream"))
  end.

(** The first statement of the source is [webcamUrl.lower()]: on [None]
    this is an attribute lookup on [None]. *)
Definition FixMissingSlashInWebcamUrlIfNeeded
    (webcamUrl : option string) : Outcome (option string) :=
  match webcamUrl with
  | None => Raise AttributeError
  | Some webcamUrl =>
      let streamUrlLower := Py.lower webcamUrl in
      let webcamLocation := Py.find streamUrlLower "webcam" 0 in
      let actionLocation := Py.find streamUrlLower "?action=" 0 in
      if (webcamLocation =? -1) || (actionLocation =? -1) then Ret None
      else if actionLocation =? 0 then Ret None
      else
        c ← Py.getitem streamUrlLower (actionLocation - 1);
        if Ascii.eqb c "/"%char then Ret None
        else
          Ret (Some (Py.slice_to webcamUrl actionLocation ++ "/"
                     ++ Py.slice_from webcamUrl actionLocation))
  end.


(** ** Text decoded from bytes *)

(** A decoded text is the list of its code points. *)
Definition ustr : Type := list N.

(** The text of a literal of the source. *)
Definition u (s : string) : ustr := N_of_ascii <$> list_ascii_of_string s.

Module U.

Local Open Scope N_scope.

(** [str.lower], exact on the code points below 256.  Above that range
    the character is kept; the source only compares a prefix of a
    lowered text with the literals [content-type], [content-length] and
    [multipart/], and no character above 255 lowers to a text that can
    take part in such a match. *)
Definition lower_char (c : N) : N :=
  if (65 <=? c) && (c <=? 90) || (192 <=? c) && (c <=? 222) && negb (c =? 215)
  then c + 32 else c.

Definition lower (s : ustr) : ustr := lower_char <$> s.

Fixpoint startswith (s p : ustr) : bool :=
  match p, s with
  | [], _ => true
  | a :: p', b :: s' => (a =? b) && startswith s' p'
  | _ :: _, [] => false
  end.

Fixpoint find_from (s sub : ustr) (i : nat) : option nat :=
  if startswith s sub then Some i
  else match s with
       | [] => None
       | _ :: s' => find_from s' sub (S i)
       end.

(** [s.find(sub)] *)
Definition find (s sub : ustr) : Z :=
  match find_from s sub 0 with
  | Some i => Z.of_nat i
  | None => (-1)%Z
  end.

Definition cons_head (c : N) (parts : list ustr) : list ustr :=
  match parts with
  | h :: t => (c :: h) :: t
  | [] => [[c]]
  end.

(** [s.split(sep)] for a non-empty separator: occurrences are taken
    from the left and do not overlap.  [skip] counts the characters of
    an occurrence that are still to be passed over. *)
Fixpoint split_go (sep : ustr) (skip : nat) (s : ustr) : list ustr :=
  match s with
  | [] => [[]]
  | c :: s' =>
      match skip with
      | S k => split_go sep k s'
      | O =>
          if startswith s sep then [] :: split_go sep (length sep - 1) s'
          else cons_head c (split_go sep 0 s')
      end
  end.

Definition split (s sep : ustr) : list ustr := split_go sep 0 s.

(** The characters [str.strip] removes ([str.isspace]). *)
Definition isspace (c : N) : bool :=
  (9 <=? c) && (c <=? 13) || (28 <=? c) && (c <=? 32)
  || (c =? 0x85) || (c =? 0xA0) || (c =? 0x1680)
  || (0x2000 <=? c) && (c <=? 0x200A)
  || (c =? 0x2028) || (c =? 0x2029) || (c =? 0x202F) || (c =? 0x205F)
  || (c =? 0x3000).

Fixpoint lstrip_by (f : N → bool) (s : ustr) : ustr :=
  match s with
  | c :: s' => if f c then lstrip_by f s' else s
  | [] => []
  end.

Definition strip_by (f : N → bool) (s : ustr) : ustr :=
  rev (lstrip_by f (rev (lstrip_by f s))).

Definition strip (s : ustr) : ustr := strip_by isspace s.

(** The code points of the digit zero of every decimal-digit block
    (Unicode 14); the other nine digits of a block follow their zero. *)
Definition digit_zeros : list N :=
  [ 0x30; 0x660; 0x6f0; 0x7c0; 0x966; 0x9e6; 0xa66; 0xae6; 0xb66; 0xbe6;
    0xc66; 0xce6; 0xd66; 0xde6; 0xe50; 0xed0; 0xf20; 0x1040; 0x1090;
    0x17e0; 0x1810; 0x1946; 0x19d0; 0x1a80; 0x1a90; 0x1b50; 0x1bb0;
    0x1c40; 0x1c50; 0xa620; 0xa8d0; 0xa900; 0xa9d0; 0xa9f0; 0xaa50;
    0xabf0; 0xff10; 0x104a0; 0x10d30; 0x11066; 0x110f0; 0x11136; 0x111d0;
    0x112f0; 0x11450; 0x114d0; 0x11650; 0x116c0; 0x11730; 0x118e0;
    0x11950; 0x11c50; 0x11d50; 0x11da0; 0x16a60; 0x16ac0; 0x16b50;
    0x1d7ce; 0x1d7d8; 0x1d7e2; 0x1d7ec; 0x1d7f6; 0x1e140; 0x1e2f0;
    0x1e950; 0x1fbf0 ].

Fixpoint digit_in (zeros : list N) (c : N) : option Z :=
  match zeros with
  | [] => None
  | z :: zeros' =>
      if (z <=? c) && (c <? z + 10) then Some (Z.of_N (c - z))
      else digit_in zeros' c
  end.

Definition digit_value (c : N) : option Z := digit_in digit_zeros c.

(** Digits with single underscores between them. *)
Fixpoint digits_go (acc : Z) (after_digit : bool) (s : ustr) : option Z :=
  match s with
  | [] => if after_digit then Some acc else None
  | c :: s' =>
      match digit_value c with
      | Some d => digits_go (10 * acc + d)%Z true s'
      | None =>
          if (c =? 95) && after_digit
          then match s' with
               | [] => None
               | _ :: _ => digits_go acc false s'
               end
          else None
      end
  end.

(** The blanks [int] passes over around the number: the C white space,
    and the other Unicode spaces, which it first turns into blanks. *)
Definition int_space (c : N) : bool :=
  isspace c && negb ((28 <=? c) && (c <=? 31)).

(** [int(s)] in base 10: blanks around, an optional sign, digits. *)
Definition int (s : ustr) : Outcome Z :=
  let body := strip_by int_space s in
  let '(negative, digits) :=
    match body with
    | 43 :: r => (false, r)
    | 45 :: r => (true, r)
    | _ => (false, body)
    end in
  match digits_go 0%Z false digits with
  | Some n => Ret (if negative then (- n)%Z else n)
  | None => Raise ValueError
  end.

(** [str(n)] for an integer. *)
Definition str (n : Z) : ustr := u (NilEmpty.string_of_int (Z.to_int n)).

End U.

(** ** Byte buffers *)

Module Bytes.

Definition len (b : list byte) : Z := Z.of_nat (length b).

Definition norm_index (b : list byte) (i : Z) : nat :=
  if i <? 0 then Z.to_nat (len b + i) else Z.to_nat i.

(** [b[:stop]] and [b[start:]] *)
Definition slice_to (b : list byte) (stop : Z) : list byte :=
  take (norm_index b stop) b.

Definition slice_from (b : list byte) (start : Z) : list byte :=
  drop (norm_index b start) b.

(** [b[i]] for a position [i]. *)
Definition getitem (b : list byte) (i : nat) : Outcome byte :=
  match b !! i with
  | Some x => Ret x
  | None => Raise IndexError
  end.

Local Open Scope N_scope.

Definition is_cont (b : N) : bool := (0x80 <=? b) && (b <=? 0xBF).

(** The second byte of a three-byte sequence: E0 needs A0..BF, ED
    needs 80..9F, the others 80..BF. *)
Definition second_of_3 (b0 b1 : N) : bool :=
  is_cont b1 && negb (if b1 <? 0xA0 then b0 =? 0xE0 else b0 =? 0xED).

(** The second byte of a four-byte sequence: F0 needs 90..BF, F4
    needs 80..8F. *)
Definition second_of_4 (b0 b1 : N) : bool :=
  is_cont b1 && negb (if b1 <? 0x90 then b0 =? 0xF0 else b0 =? 0xF4).

Definition low6 (b : N) : N := N.land b 0x3F.

(** [bytes.decode(errors="ignore")]: UTF-8, where a byte that cannot
    start a character is dropped, a sequence broken by a byte that
    cannot continue it is dropped up to that byte, and a sequence cut
    off by the end of the data is dropped. *)
Fixpoint decode_N (bs : list N) : ustr :=
  match bs with
  | [] => []
  | b0 :: t0 =>
      if b0 <? 0x80 then b0 :: decode_N t0
      else if b0 <? 0xC2 then decode_N t0
      else if b0 <? 0xE0 then
        match t0 with
        | [] => []
        | b1 :: t1 =>
            if is_cont b1
            then N.lor (N.shiftl (N.land b0 0x1F) 6) (low6 b1) :: decode_N t1
            else decode_N t0
        end
      else if b0 <? 0xF0 then
        match t0 with
        | [] => []
        | b1 :: t1 =>
            if second_of_3 b0 b1 then
              match t1 with
              | [] => []
              | b2 :: t2 =>
                  if is_cont b2
                  then N.lor (N.shiftl (N.land b0 0x0F) 12)
                         (N.lor (N.shiftl (low6 b1) 6) (low6 b2))
                       :: decode_N t2
                  else decode_N t1
              end
            else decode_N t0
        end
      else if b0 <? 0xF5 then
        match t0 with
        | [] => []
        | b1 :: t1 =>
            if second_of_4 b0 b1 then
              match t1 with
              | [] => []
              | b2 :: t2 =>
                  if is_cont b2 then
                    match t2 with
                    | [] => []
                    | b3 :: t3 =>
                        if is_cont b3
                        then N.lor (N.shiftl (N.land b0 0x07) 18)
                               (N.lor (N.shiftl (low6 b1) 12)
                                  (N.lor (N.shiftl (low6 b2) 6) (low6 b3)))
                             :: decode_N t3
                        else decode_N t2
                    end
                  else decode_N t1
              end
            else decode_N t0
        end
      else decode_N t0
  end.

Definition decode (b : list byte) : ustr := decode_N (Byte.to_N <$> b).

(** The bytes of an ASCII literal. *)
Definition of_string (s : string) : list byte := list_byte_of_string s.

End Bytes.

(** ** Telemetry *)

(** A call of [Sentry.Debug], [Sentry.Info], [Sentry.Error] or
    [Sentry.Exception] is recorded with its level and the fixed part of
    its message. *)
Inductive Level : Type := LDebug | LInfo | LError | LException.

Definition LogEntry : Type := Level * string.

(** ** HTTP responses and results *)

(** What [response.raw.read(amt)] yields. *)
Inductive ReadResult : Type :=
| ReadData (data : list byte)
| ReadNone
| ReadRaises (e : Exn).

(** The response object of the HTTP library.  [raw delivered amt] is what
    [raw.read(amt)] yields once [delivered] bytes have been handed out;
    [headers] keeps the order in which the keys are iterated. *)
Record Response : Type := mkResponse {
  status_code : Z;
  headers : list (string * ustr);
  raw : nat → nat → ReadResult;
  delivered : nat;
  closed : bool
}.

(** A body that delivers the bytes [s] and then ends. *)
Definition stream_of (s : list byte) : nat → nat → ReadResult :=
  λ delivered amt, ReadData (take amt (drop delivered s)).

(** [headers.clear()] and [headers[key] = value]; the header map compares
    keys without regard to case, and a key that is present keeps its
    place. *)
Fixpoint headers_set (hs : list (string * ustr)) (key : string) (value : ustr)
    : list (string * ustr) :=
  match hs with
  | [] => [(key, value)]
  | (k, v) :: hs' =>
      if String.eqb (Py.lower k) (Py.lower key) then (key, value) :: hs'
      else (k, v) :: headers_set hs' key value
  end.

(** Modelled from the spec: [OctoHttpRequest.Result], whose class is not
    among the sources.  Section 3 of the specification gives it a
    response handle, the resolved URL, a success flag and an optional
    fully buffered body; the source builds it with these four values in
    this order and sets the body with [SetFullBodyBuffer]. *)
Record HttpResult : Type := mkHttpResult {
  Result : option Response;
  Url : string;
  Success : bool;
  FullBodyBuffer : option (list byte)
}.

Definition SetFullBodyBuffer (r : HttpResult) (buf : list byte) : HttpResult :=
  {| Result := Result r; Url := Url r; Success := Success r;
     FullBodyBuffer := Some buf |}.

Definition set_response (r : HttpResult) (resp : Response) : HttpResult :=
  {| Result := Some resp; Url := Url r; Success := Success r;
     FullBodyBuffer := FullBodyBuffer r |}.

(** The modules the helper imports: [OctoHttpRequest.MakeHttpCall], always
    called as [MakeHttpCall(url, GetPathType(url), "GET", {}, allowRedirects=True)],
    and [RequestsUtils.ReadAllContentFromStreamResponse]. *)
Record Collaborators : Type := mkCollaborators {
  MakeHttpCall : string → option HttpResult;
  ReadAllContentFromStreamResponse : Response → option (list byte)
}.

(** ** Camera settings *)

Record WebcamSettingItem : Type := mkWebcamSettingItem {
  Name : string;
  SnapshotUrl : option string;
  StreamUrl : option string;
  FlipH : bool;
  FlipV : bool;
  Rotation : Z
}.

(** The fields of [self].  [WebcamPlatformHelperInterface] stands for what
    a call of its [GetWebcamConfig()] produces. *)
Record WebcamHelper : Type := mkWebcamHelper {
  WebcamPlatformHelperInterface : Outcome (option (list WebcamSettingItem));
  DefaultCameraName : option string
}.

Definition GetDefaultCameraName (self : WebcamHelper) : option string :=
  DefaultCameraName self.

Definition ListWebcams_traced (self : WebcamHelper)
    : option (list WebcamSettingItem) * list LogEntry :=
  match WebcamPlatformHelperInterface self with
  | Ret a =>
      match a with
      | None => (None, [])
      | Some l => if (length l =? 0)%nat then (None, []) else (Some l, [])
      end
  | Raise e => (None, [(LException, "WebcamHelper ListWebcams exception.")])
  end.

Definition ListWebcams (self : WebcamHelper) : option (list WebcamSettingItem) :=
  (ListWebcams_traced self).1.

(** [for i in a: if i.Name.lower() == cameraNameLower: return i] *)
Fixpoint find_by_name (a : list WebcamSettingItem) (cameraNameLower : string)
    : option WebcamSettingItem :=
  match a with
  | [] => None
  | i :: a' =>
      if String.eqb (Py.lower (Name i)) cameraNameLower then Some i
      else find_by_name a' cameraNameLower
  end.

(** [a[0]] *)
Definition first_item (a : list WebcamSettingItem) : Outcome WebcamSettingItem :=
  match a !! 0%nat with
  | Some i => Ret i
  | None => Raise IndexError
  end.

(** The value [_GetWebcamSettingObj] returns and the records it sends to
    the telemetry. *)
Definition _GetWebcamSettingObj_traced (self : WebcamHelper) (cameraName : option string)
    : option WebcamSettingItem * list LogEntry :=
  let '(a, log0) := ListWebcams_traced self in
  match a with
  | None => (None, log0)
  | Some a =>
      if (length a =? 0)%nat then (None, log0)
      else
        let cameraName :=
          match cameraName with
          | None => GetDefaultCameraName self
          | Some n => if (String.length n =? 0)%nat then GetDefaultCameraName self
                      else Some n
          end in
        let '(found, log1) :=
          match cameraName with
          | None => (None, [])
          | Some n =>
              match find_by_name a (Py.lower n) with
              | Some i => (Some i, [])
              | None => (None, [(LError, "_GetWebcamSettingObj asked for {cameraName} but we didn't find it.")])
              end
          end in
        match found with
        | Some i => (Some i, (log0 ++ log1)%list)
        | None =>
            match first_item a with
            | Ret i => (Some i, (log0 ++ log1)%list)
            | Raise e =>
                (None, (log0 ++ log1
                        ++ [(LException, "WebcamHelper _GetWebcamSettingObj exception.")])%list)
            end
        end
  end.

Definition _GetWebcamSettingObj (self : WebcamHelper) (cameraName : option string)
    : option WebcamSettingItem :=
  (_GetWebcamSettingObj_traced self cameraName).1.

Definition GetSnapshotUrl (self : WebcamHelper) (cameraName : option string)
    : option string :=
  match _GetWebcamSettingObj self cameraName with
  | None => None
  | Some obj => SnapshotUrl obj
  end.

Definition GetWebcamStreamUrl (self : WebcamHelper) (cameraName : option string)
    : option string :=
  match _GetWebcamSettingObj self cameraName with
  | None => None
  | Some obj => StreamUrl obj
  end.

(** ** The default camera name and its settings file *)

(** The values a field of the settings file can hold. *)
Inductive JsonValue : Type :=
| JNull
| JString (s : string)
| JNumber (n : Z).

(** The settings file: absent, not parseable by [json.load], or a JSON
    object.  [json.dumps] and [json.load] are taken at the level of the
    value they carry: the text written for an object parses back to it. *)
Inductive FileState : Type :=
| NoFile
| Malformed
| JsonObject (fields : gmap string JsonValue).

(** The file at [SettingsFilePath]; [open(path, mode="w")] raises when
    the file cannot be written. *)
Record Disk : Type := mkDisk {
  settings_file : FileState;
  writable : bool
}.

Definition SetDefaultCameraName (name : string) (st : WebcamHelper * Disk)
    : WebcamHelper * Disk * list LogEntry :=
  let '(self, disk) := st in
  let name := Py.lower name in
  let self := {| WebcamPlatformHelperInterface := WebcamPlatformHelperInterface self;
                 DefaultCameraName := Some name |} in
  let settings : gmap string JsonValue := {[ "DefaultWebcamName" := JString name ]} in
  if writable disk
  then (self, {| settings_file := JsonObject settings; writable := writable disk |}, [])
  else (self, disk, [(LError, "SetDefaultCameraName failed")]).

(** [len(name)] for a value read from the file. *)
Definition json_len (v : JsonValue) : Outcome Z :=
  match v with
  | JString s => Ret (Py.len s)
  | JNull | JNumber _ => Raise TypeError
  end.

(** The body of the [try] of [_LoadDefaultCameraName]: the name to keep,
    or the exception that ends it. *)
Definition load_name (disk : Disk) : Outcome (option string) :=
  match settings_file disk with
  | NoFile => Ret None
  | Malformed => Raise ValueError
  | JsonObject data =>
      name ← match data !! "DefaultWebcamName" with
             | Some v => Ret v
             | None => Raise KeyError
             end;
      match name with
      | JNull => Ret None
      | _ =>
          n ← json_len name;
          if n =? 0 then Ret None
          else match name with
               | JString s => Ret (Some s)
               | _ => Ret None
               end
      end
  end.

Definition _LoadDefaultCameraName (self : WebcamHelper) (disk : Disk)
    : WebcamHelper * list LogEntry :=
  let with_name (n : option string) :=
    {| WebcamPlatformHelperInterface := WebcamPlatformHelperInterface self;
       DefaultCameraName := n |} in
  match load_name disk with
  | Ret (Some name) =>
      (with_name (Some name), [(LInfo, "Webcam settings loaded.")])
  | Ret None => (with_name None, [])
  | Raise e => (with_name None, [(LError, "_LoadDefaultCameraName failed")])
  end.

(** [WebcamHelper(webcamPlatformHelperInterface, pluginDataFolderPath)] *)
Definition Init (platform : Outcome (option (list WebcamSettingItem))) (disk : Disk)
    : WebcamHelper :=
  (_LoadDefaultCameraName
     {| WebcamPlatformHelperInterface := platform; DefaultCameraName := None |}
     disk).1.

(** ** JPEG header repair *)

(** How the walk over the segments of a buffer ends: [Unchanged] for every
    [return octoHttpResult] that leaves the buffer as it was read,
    [Rewritten] when the patched [bytearray] is stored, [Failed] for an
    exception inside the [try].  [OutOfFuel] is the bound of the
    recursion and is never reached ([walk_fuel]). *)
Inductive Walk : Type :=
| OutOfFuel
| Unchanged
| Rewritten (bufArray : list byte)
| Failed (e : Exn).

(** [a or b], where [b] is only evaluated when [a] is false. *)
Definition or_else (a b : Outcome bool) : Outcome bool :=
  match a with
  | Ret true => Ret true
  | Ret false => b
  | Raise e => Raise e
  end.

Definition is_zero_at (buf : list byte) (pos : nat) : Outcome bool :=
  b ← Bytes.getitem buf pos; Ret (Byte.eqb b x00).

Definition is_nonzero_at (buf : list byte) (pos : nat) : Outcome bool :=
  b ← Bytes.getitem buf pos; Ret (negb (Byte.eqb b x00)).

(** [needsChanges] *)
Definition needs_changes (buf : list byte) (pos : nat) : Outcome bool :=
  or_else (is_zero_at buf pos)
    (or_else (is_zero_at buf (pos + 1))
       (or_else (is_zero_at buf (pos + 2))
          (or_else (is_zero_at buf (pos + 3))
             (or_else (is_zero_at buf (pos + 4))
                (is_nonzero_at buf (pos + 5)))))).

(** [if bufArray[pos] == 0: bufArray[pos] = v] *)
Definition store_if_zero (bufArray : list byte) (pos : nat) (v : byte)
    : Outcome (list byte) :=
  b ← Bytes.getitem bufArray pos;
  Ret (if Byte.eqb b x00 then <[pos := v]> bufArray else bufArray).

(** [if bufArray[pos] != 0: bufArray[pos] = 0] *)
Definition clear_if_set (bufArray : list byte) (pos : nat) : Outcome (list byte) :=
  b ← Bytes.getitem bufArray pos;
  Ret (if negb (Byte.eqb b x00) then <[pos := x00]> bufArray else bufArray).

(** The APP0 branch, with [pos] already moved past the marker and the
    length: [None] when no change is needed, else the patched copy. *)
Definition repair_identifier (buf : list byte) (pos : nat)
    : Outcome (option (list byte)) :=
  needsChanges ← needs_changes buf pos;
  if negb needsChanges then Ret None
  else
    bufArray ← store_if_zero buf pos x4a;
    bufArray ← store_if_zero bufArray (pos + 1) x46;
    bufArray ← store_if_zero bufArray (pos + 2) x49;
    bufArray ← store_if_zero bufArray (pos + 3) x46;
    bufArray ← clear_if_set bufArray (pos + 4);
    Ret (Some bufArray).

(** [(buf[pos] << 8) + buf[pos+1]] *)
Definition segment_length (buf : list byte) (pos : nat) : Outcome nat :=
  hi ← Bytes.getitem buf pos;
  lo ← Bytes.getitem buf (pos + 1);
  Ret (N.to_nat (N.shiftl (Byte.to_N hi) 8 + Byte.to_N lo)).

(** The [while pos < bufLen] loop. *)
Fixpoint walk (fuel : nat) (buf : list byte) (pos : nat) : Walk :=
  if negb (pos <? length buf)%nat then Unchanged
  else
    match fuel with
    | O => OutOfFuel
    | S fuel' =>
        if (length buf <=? pos + 1)%nat then Unchanged
        else
          match Bytes.getitem buf pos with
          | Raise e => Failed e
          | Ret marker =>
              if negb (Byte.eqb marker xff) then Unchanged
              else
                match Bytes.getitem buf (pos + 1) with
                | Raise e => Failed e
                | Ret segmentType =>
                    if Byte.eqb segmentType xda then Unchanged
                    else if Byte.eqb segmentType xe0 then
                      match repair_identifier buf (pos + 4) with
                      | Ret None => Unchanged
                      | Ret (Some bufArray) => Rewritten bufArray
                      | Raise e => Failed e
                      end
                    else
                      match segment_length buf (pos + 2) with
                      | Raise e => Failed e
                      | Ret segLen => walk fuel' buf (pos + 2 + segLen)
                      end
                end
          end
    end.

(** The [try] block: the SOI check and the loop from offset 2. *)
Definition scan_jpeg (buf : list byte) : Walk :=
  match buf with
  | b0 :: b1 :: _ =>
      if negb (Byte.eqb b0 xff) || negb (Byte.eqb b1 xd8) then Unchanged
      else walk (length buf) buf 2
  | _ => Unchanged
  end.

(** The body the result carries once [_EnsureJpegHeaderInfo] is done
    with the buffer [buf] it has read. *)
Definition ensured_body (buf : list byte) : list byte :=
  match scan_jpeg buf with
  | Rewritten bufArray => bufArray
  | OutOfFuel | Unchanged | Failed _ => buf
  end.

Definition _EnsureJpegHeaderInfo (C : Collaborators) (octoHttpResult : option HttpResult)
    : option HttpResult :=
  match octoHttpResult with
  | None => None
  | Some res =>
      match Result res with
      | None => Some res
      | Some response =>
          match ReadAllContentFromStreamResponse C response with
          | None => None
          | Some buf => Some (SetFullBodyBuffer res (ensured_body buf))
          end
      end
  end.

(** The positions at which the loop looks for a marker: offset 2, and
    the end of every segment it steps over (a segment that is neither
    the start of scan nor APP0). *)
Inductive visits (buf : list byte) : nat → Prop :=
| visits_first : visits buf 2
| visits_next (pos : nat) (segmentType hi lo : byte) :
    visits buf pos →
    buf !! pos = Some xff →
    buf !! (pos + 1)%nat = Some segmentType →
    segmentType ≠ xda →
    segmentType ≠ xe0 →
    buf !! (pos + 2)%nat = Some hi →
    buf !! (pos + 3)%nat = Some lo →
    visits buf (pos + 2 + N.to_nat (N.shiftl (Byte.to_N hi) 8 + Byte.to_N lo)).

(** The byte [b], or [v] where [b] is zero. *)
Definition or_default (b v : byte) : byte := if Byte.eqb b x00 then v else b.

(** ** Extracting one frame from a multipart stream *)

Definition endOfAllHeadersMatch : ustr := [13; 10; 13; 10]%N.
Definition endOfHeaderMatch : ustr := [13; 10]%N.

(** The [for name in response.headers] loop: the lowered value of the
    first key that is [content-type] without regard to case. *)
Fixpoint find_content_type (hs : list (string * ustr)) : option ustr :=
  match hs with
  | [] => None
  | (name, value) :: hs' =>
      if String.eqb (Py.lower name) "content-type" then Some (U.lower value)
      else find_content_type hs'
  end.

Definition isMultipartStream (hs : list (string * ustr)) : bool :=
  match find_content_type hs with
  | Some contentTypeLower => U.startswith contentTypeLower (u "multipart/")
  | None => false
  end.

(** [p = header.split(':')] and, when [len(p) == 2], [p[1].strip()]. *)
Definition field_value (header : ustr) : option ustr :=
  match U.split header (u ":") with
  | [_; v] => Some (U.strip v)
  | _ => None
  end.

(** One round of [for header in headers] on [(frameSizeInt, contentType)]. *)
Definition scan_header (acc : Z * option ustr) (header : ustr)
    : Outcome (Z * option ustr) :=
  let '(frameSizeInt, contentType) := acc in
  let headerLower := U.lower header in
  let contentType :=
    if U.startswith headerLower (u "content-type")
    then match field_value header with
         | Some v => Some v
         | None => contentType
         end
    else contentType in
  if U.startswith headerLower (u "content-length")
  then match field_value header with
       | Some v => n ← U.int v; Ret (n, contentType)
       | None => Ret (frameSizeInt, contentType)
       end
  else Ret (frameSizeInt, contentType).

Fixpoint scan_headers (headers : list ustr) (acc : Z * option ustr)
    : Outcome (Z * option ustr) :=
  match headers with
  | [] => Ret acc
  | header :: headers' =>
      acc' ← scan_header acc header; scan_headers headers' acc'
  end.

(** The state the [with response:] block works on: the response object
    and the telemetry sent so far. *)
Record ExtState : Type := mkExtState {
  ext_response : Response;
  ext_log : list LogEntry
}.

Definition Ext (A : Type) : Type := ExtState → Outcome A * ExtState.

Global Instance Ext_ret : MRet Ext := λ A a st, (Ret a, st).
Global Instance Ext_bind : MBind Ext :=
  λ A B f m st,
    match m st with
    | (Ret a, st') => f a st'
    | (Raise e, st') => (Raise e, st')
    end.

Definition sentry (lvl : Level) (msg : string) : Ext unit :=
  λ st, (Ret tt, {| ext_response := ext_response st; ext_log := (ext_log st ++ [(lvl, msg)])%list |}).

Definition get_response : Ext Response := λ st, (Ret (ext_response st), st).

Definition update_response (f : Response → Response) : Ext unit :=
  λ st, (Ret tt, {| ext_response := f (ext_response st); ext_log := ext_log st |}).

(** [response.close()] *)
Definition close (r : Response) : Response :=
  {| status_code := status_code r; headers := headers r; raw := raw r;
     delivered := delivered r; closed := true |}.

Definition set_status_code (code : Z) (r : Response) : Response :=
  {| status_code := code; headers := headers r; raw := raw r;
     delivered := delivered r; closed := closed r |}.

Definition set_headers (hs : list (string * ustr)) (r : Response) : Response :=
  {| status_code := status_code r; headers := hs; raw := raw r;
     delivered := delivered r; closed := closed r |}.

(** [response.raw.read(amt)]: the data, [None], or an exception. *)
Definition raw_read (amt : nat) : Ext (option (list byte)) :=
  λ st,
    let r := ext_response st in
    match raw r (delivered r) amt with
    | ReadData data =>
        (Ret (Some data),
         {| ext_response := {| status_code := status_code r; headers := headers r;
                              raw := raw r;
                              delivered := (delivered r + length data)%nat;
                              closed := closed r |};
            ext_log := ext_log st |})
    | ReadNone => (Ret None, st)
    | ReadRaises e => (Raise e, st)
    end.

Definition lift {A} (o : Outcome A) : Ext A := λ st, (o, st).

(** [with response: body]: the response is closed when the block is
    left, by a [return] or by an exception. *)
Definition with_response {A} (body : Ext A) : Ext A :=
  λ st,
    let '(o, st') := body st in
    (o, {| ext_response := close (ext_response st'); ext_log := ext_log st' |}).

(** From the early [response.close()] to the [return] of the result. *)
Definition finish_frame (url : string) (headerStrSize frameSizeInt : Z)
    (contentType : ustr) (dataBuffer : list byte) : Ext (option HttpResult) :=
  let totalDesiredBufferSize := frameSizeInt + headerStrSize in
  update_response close;;
  let dataBuffer :=
    if Bytes.len dataBuffer >? totalDesiredBufferSize
    then Bytes.slice_to dataBuffer totalDesiredBufferSize
    else dataBuffer in
  if negb (Bytes.len dataBuffer =? totalDesiredBufferSize)
  then
    sentry LError "Snapshot callback failed, the data read loop didn't produce the expected data size.";;
    mret None
  else
    let imageBuffer := Bytes.slice_from dataBuffer headerStrSize in
    (if negb (Bytes.len imageBuffer =? frameSizeInt)
     then sentry LError "Snapshot callback final image size was not the frame size."
     else mret tt);;
    update_response (set_status_code 200);;
    update_response (set_headers []);;
    update_response (λ r, set_headers (headers_set (headers r) "content-type" contentType) r);;
    update_response (λ r, set_headers (headers_set (headers r) "content-length"
                                         (U.str (Bytes.len imageBuffer))) r);;
    sentry LDebug "Successfully got image from stream URL.";;
    response ← get_response;
    mret (Some {| Result := Some response; Url := url; Success := true;
                  FullBodyBuffer := Some imageBuffer |}).

(** The block under [with response:]. *)
Definition frame_from_response (url : string) : Ext (option HttpResult) :=
  response ← get_response;
  if negb (isMultipartStream (headers response))
  then sentry LInfo "Snapshot fallback failed not correct content type";; mret None
  else
    dataBuffer ← raw_read 300;
    match dataBuffer with
    | None => sentry LInfo "Snapshot fallback failed no data returned.";; mret None
    | Some dataBuffer =>
        let headerStr := Bytes.decode dataBuffer in
        let headerStrSize := U.find headerStr endOfAllHeadersMatch in
        if headerStrSize =? -1
        then sentry LInfo "Snapshot fallback failed no end of headers found.";; mret None
        else
          let headerStrSize := headerStrSize + 4 in
          let headers := U.split headerStr endOfHeaderMatch in
          found ← lift (scan_headers headers (0, None));
          let '(frameSizeInt, contentType) := found in
          match (frameSizeInt =? 0), contentType with
          | true, None =>
              sentry LInfo "Snapshot fallback failed to find frame size.";;
              sentry LInfo "Snapshot fallback failed to find the content type.";;
              mret None
          | true, Some _ =>
              sentry LInfo "Snapshot fallback failed to find frame size.";; mret None
          | false, None =>
              sentry LInfo "Snapshot fallback failed to find the content type.";; mret None
          | false, Some contentType =>
              sentry LDebug "Image found in webcam stream.";;
              let totalDesiredBufferSize := frameSizeInt + headerStrSize in
              let toRead := totalDesiredBufferSize - Bytes.len dataBuffer in
              if toRead >? 0
              then
                data ← raw_read (Z.to_nat toRead);
                match data with
                | None =>
                    sentry LError "_GetSnapshotFromStream failed to read the rest of the image buffer.";;
                    mret None
                | Some data =>
                    finish_frame url headerStrSize frameSizeInt contentType
                      (dataBuffer ++ data)%list
                end
              else finish_frame url headerStrSize frameSizeInt contentType dataBuffer
          end
    end.

(** ["Read timed out" in str(e)] *)
Definition is_read_timeout (msg : string) : bool :=
  match String.index 0 "Read timed out" msg with
  | Some _ => true
  | None => false
  end.

(** The [except] clauses: every exception ends in [return None]. *)
Definition handle_exception (e : Exn) : LogEntry :=
  match e with
  | ConnectionError msg =>
      if is_read_timeout msg
      then (LDebug, "_GetSnapshotFromStream got a timeout while reading the stream.")
      else (LException, "Failed to get fallback snapshot due to ConnectionError")
  | _ => (LException, "Failed to get fallback snapshot.")
  end.

(** What a call of [_GetSnapshotFromStream] leaves behind: the value it
    returns (or the exception it lets through), the response object the
    HTTP call handed out, if any, in its final state, and the telemetry. *)
Record Extraction : Type := mkExtraction {
  returned : Outcome (option HttpResult);
  response_after : option Response;
  sent : list LogEntry
}.

Definition _GetSnapshotFromStream (C : Collaborators) (url : string) : Extraction :=
  let log0 := [(LDebug, "_GetSnapshotFromStream - Trying to get a snapshot using THE STREAM URL")] in
  let no_request :=
    {| returned := Ret None; response_after := None;
       sent := (log0 ++ [(LDebug, "_GetSnapshotFromStream - Failed to make web request.")])%list |} in
  match MakeHttpCall C url with
  | None => no_request
  | Some octoHttpResult =>
      match Result octoHttpResult with
      | None => no_request
      | Some response =>
          if negb (status_code response =? 200)
          then
            {| returned := Ret None; response_after := Some response;
               sent := (log0 ++ [(LInfo, "Snapshot fallback failed due to the http call having a bad status")])%list |}
          else
            let '(o, st) :=
              with_response (frame_from_response url)
                {| ext_response := response; ext_log := log0 |} in
            match o with
            | Ret v =>
                {| returned := Ret v; response_after := Some (ext_response st);
                   sent := ext_log st |}
            | Raise e =>
                {| returned := Ret None; response_after := Some (ext_response st);
                   sent := (ext_log st ++ [handle_exception e])%list |}
            end
      end
  end.

(** ** Snapshot and stream requests *)

Definition c_OeWebcamTransformHeaderKey : string := "x-oe-webcam-transform".

(** [transformStr] *)
Definition transform_string (settings : WebcamSettingItem) : string :=
  if FlipH settings || FlipV settings || negb (Rotation settings =? 0)
  then (if FlipH settings then "fliph " else "")
       ++ (if FlipV settings then "flipv " else "")
       ++ (if negb (Rotation settings =? 0)
           then "rotate=" ++ NilEmpty.string_of_int (Z.to_int (Rotation settings)) ++ " "
           else "")
  else "none".

(** [settings.FlipH] on a [settings] that is [None] is an attribute
    lookup on [None]. *)
Definition _AddOeWebcamTransformHeader (self : WebcamHelper)
    (octoHttpResult : option HttpResult) (cameraName : option string)
    : Outcome (option HttpResult) :=
  match octoHttpResult with
  | None => Ret None
  | Some res =>
      match Result res with
      | None => Ret (Some res)
      | Some response =>
          match _GetWebcamSettingObj self cameraName with
          | None => Raise AttributeError
          | Some settings =>
              let transformStr := transform_string settings in
              Ret (Some (set_response res
                           (set_headers
                              (headers_set (headers response)
                                 c_OeWebcamTransformHeaderKey (u transformStr))
                              response)))
          end
      end
  end.

Definition _GetWebcamStreamInternal (C : Collaborators) (self : WebcamHelper)
    (cameraName : option string) : option HttpResult :=
  match GetWebcamStreamUrl self cameraName with
  | Some webcamStreamUrl => MakeHttpCall C webcamStreamUrl
  | None => None
  end.

Definition GetWebcamStream (C : Collaborators) (self : WebcamHelper)
    (cameraName : option string) : Outcome (option HttpResult) :=
  _AddOeWebcamTransformHeader self (_GetWebcamStreamInternal C self cameraName) cameraName.

(** [octoHttpResult is not None and octoHttpResult.Result is not None and
    octoHttpResult.Result.status_code == 200] *)
Definition is_ok_200 (octoHttpResult : option HttpResult) : bool :=
  match octoHttpResult with
  | Some res =>
      match Result res with
      | Some response => status_code response =? 200
      | None => false
      end
  | None => false
  end.

Definition _GetSnapshotInternal (C : Collaborators) (self : WebcamHelper)
    (cameraName : option string) : Outcome (option HttpResult) :=
  let from_stream : Outcome (option HttpResult) :=
    match GetWebcamStreamUrl self None with
    | None => Ret None
    | Some streamUrl => returned (_GetSnapshotFromStream C streamUrl)
    end in
  match GetSnapshotUrl self cameraName with
  | Some snapshotUrl =>
      let octoHttpResult := MakeHttpCall C snapshotUrl in
      if is_ok_200 octoHttpResult then Ret octoHttpResult else from_stream
  | None => from_stream
  end.

Definition GetSnapshot (C : Collaborators) (self : WebcamHelper)
    (cameraName : option string) : Outcome (option HttpResult) :=
  r ← _GetSnapshotInternal C self cameraName;
  _AddOeWebcamTransformHeader self (_EnsureJpegHeaderInfo C r) cameraName.

(** ** Oracle requests *)






(** ** Validation of a camera item *)

(** A value the platform can hand over where a flag is expected. *)
Inductive PyValue : Type :=
| VBool (b : bool)
| VInt (n : Z)
| VStr (s : string).

(** [bool(v)] *)
Definition truthy (v : PyValue) : bool :=
  match v with
  | VBool b => b
  | VInt n => negb (n =? 0)
  | VStr s => negb (String.length s =? 0)%nat
  end.

(** A [WebcamSettingItem] as it is built, before [Validate]: every field
    can still be [None]. *)
Record WebcamSettingInput : Type := mkWebcamSettingInput {
  in_Name : option string;
  in_SnapshotUrl : option string;
  in_StreamUrl : option string;
  in_FlipH : option PyValue;
  in_FlipV : option PyValue;
  in_Rotation : option Z
}.

(** [s is None or len(s) == 0] *)
Definition none_or_empty (s : option string) : bool :=
  match s with
  | None => true
  | Some s => (String.length s =? 0)%nat
  end.

Definition set_FlipH (self : WebcamSettingInput) (v : PyValue) : WebcamSettingInput :=
  {| in_Name := in_Name self; in_SnapshotUrl := in_SnapshotUrl self;
     in_StreamUrl := in_StreamUrl self; in_FlipH := Some v;
     in_FlipV := in_FlipV self; in_Rotation := in_Rotation self |}.

Definition set_FlipV (self : WebcamSettingInput) (v : PyValue) : WebcamSettingInput :=
  {| in_Name := in_Name self; in_SnapshotUrl := in_SnapshotUrl self;
     in_StreamUrl := in_StreamUrl self; in_FlipH := in_FlipH self;
     in_FlipV := Some v; in_Rotation := in_Rotation self |}.

(** [Validate]: the value it returns, the item as it leaves it, and the
    errors it reports. *)
Definition Validate (self : WebcamSettingInput)
    : bool * WebcamSettingInput * list LogEntry :=
  if none_or_empty (in_Name self)
  then (false, self, [(LError, "Name value in WebcamSettingItem is None or empty.")])
  else
    let bad_rotation :=
      match in_Rotation self with
      | None => true
      | Some n => negb (n =? 0) && negb (n =? 90) && negb (n =? 180) && negb (n =? 270)
      end in
    if bad_rotation
    then (false, self, [(LError, "Rotation value in WebcamSettingItem is an invalid int.")])
    else if none_or_empty (in_SnapshotUrl self) && none_or_empty (in_StreamUrl self)
    then (false, self, [(LError, "Snapshot and StreamUrl values in WebcamSettingItem are none or empty")])
    else
      match in_FlipH self with
      | None => (false, self, [(LError, "FlipH value in WebcamSettingItem is None")])
      | Some h =>
          let self := set_FlipH self (VBool (truthy h)) in
          match in_FlipV self with
          | None => (false, self, [(LError, "FlipV value in WebcamSettingItem is None")])
          | Some v => (true, set_FlipV self (VBool (truthy v)), [])
          end
      end.

(** ** The camera source of OctoPrint (octoprintwebcamhelper.py) *)

(** [OctoPrintSettingsObject.global_get(path)] *)
Definition OctoPrintSettings : Type := list string → option PyValue.

(** [len(v)]: only a string has a length. *)
Definition value_len (v : PyValue) : Outcome Z :=
  match v with
  | VStr s => Ret (Py.len s)
  | VBool _ | VInt _ => Raise TypeError
  end.

(** The arguments [GetWebcamConfig] builds its one item from, in the
    order of the call. *)
Record OctoPrintItemArgs : Type := mkOctoPrintItemArgs {
  arg_snapshotUrl : PyValue;
  arg_streamUrl : PyValue;
  arg_flipH : PyValue;
  arg_flipV : PyValue;
  arg_rotation : Z
}.

(** [v if v is not None else default] *)
Definition or_value (v : option PyValue) (default : option PyValue) : option PyValue :=
  match v with
  | Some _ => v
  | None => default
  end.

Definition OctoPrint_GetWebcamConfig (settings : option OctoPrintSettings)
    : Outcome (option (list OctoPrintItemArgs)) :=
  match settings with
  | None => Ret None
  | Some global_get =>
      let snapshotUrl := global_get ["webcam"; "snapshot"] in
      let streamUrl := global_get ["webcam"; "stream"] in
      let flipH := global_get ["webcam"; "flipH"] in
      let flipV := global_get ["webcam"; "flipV"] in
      let rotate90 := global_get ["webcam"; "rotate90"] in
      let flipH := or_value flipH (global_get ["plugins"; "classicwebcam"; "flipH"]) in
      let flipV := or_value flipV (global_get ["plugins"; "classicwebcam"; "flipV"]) in
      let rotate90 := or_value rotate90 (global_get ["plugins"; "classicwebcam"; "rotate90"]) in
      snapshotUrl ←
        match snapshotUrl with
        | None => Ret (VStr "/webcam/?action=snapshot")
        | Some v =>
            n ← value_len v;
            Ret (if n =? 0 then VStr "/webcam/?action=snapshot" else v)
        end;
      streamUrl ←
        match streamUrl with
        | None => Ret (VStr "/webcam/?action=stream")
        | Some v =>
            n ← value_len snapshotUrl;
            Ret (if n =? 0 then VStr "/webcam/?action=stream" else v)
        end;
      let flipH := match flipH with Some v => v | None => VBool false end in
      let flipV := match flipV with Some v => v | None => VBool false end in
      let rotate90 := match rotate90 with Some v => v | None => VBool false end in
      let rotation := if truthy rotate90 then 270 else 0 in
      Ret (Some [ {| arg_snapshotUrl := snapshotUrl; arg_streamUrl := streamUrl;
                     arg_flipH := flipH; arg_flipV := flipV;
                     arg_rotation := rotation |} ])
  end.



(** [arr] has the size of [buf] and its bytes, but for the five bytes
    from offset [p] on. *)
Definition same_outside (p : nat) (buf arr : list byte) : Prop :=
  length arr = length buf
  ∧ take p arr = take p buf
  ∧ drop (p + 5) arr = drop (p + 5) buf.

(** ** Inputs used in the examples *)

Module Examples.

Definition CRLF : string := String (ascii_of_nat 13) (String (ascii_of_nat 10) "").

(** [--B\r\nContent-Type: image/jpeg\r\nContent-Length: n\r\n\r\n] *)
Definition part_head (n : string) : list byte :=
  Bytes.of_string ("--B" ++ CRLF ++ "Content-Type: image/jpeg" ++ CRLF
                   ++ "Content-Length: " ++ n ++ CRLF ++ CRLF).

Definition payload : list byte := [xff; xd8; xff; xd9].

(** The multipart body of section 8 of the specification. *)
Definition spec_body : list byte := (part_head "4" ++ payload)%list.

(** A 200 response with a multipart content type and the body [s]. *)
Definition multipart_response (s : list byte) : Response :=
  {| status_code := 200;
     headers := [("Content-Type", u "multipart/x-mixed-replace;boundary=B")];
     raw := stream_of s; delivered := 0; closed := false |}.

Definition result_of (url : string) (r : Response) : HttpResult :=
  {| Result := Some r; Url := url; Success := true; FullBodyBuffer := None |}.

(** Collaborators that answer every URL with the response [r]. *)
Definition always (r : Response) : Collaborators :=
  {| MakeHttpCall := λ url, Some (result_of url r);
     ReadAllContentFromStreamResponse := λ _, None |}.




(** [spec_body] followed by a second part of six bytes. *)
Definition two_part_body : list byte :=
  (spec_body ++ Bytes.of_string CRLF ++ part_head "6"
     ++ [xff; xd8; x00; x00; xff; xd9])%list.

(** A response with status 404. *)
Definition not_found_response : Response :=
  {| status_code := 404;
     headers := [("Content-Type", u "text/html")];
     raw := stream_of []; delivered := 0; closed := false |}.

Definition cam_front : WebcamSettingItem :=
  {| Name := "Front"; SnapshotUrl := Some "http://front/snapshot";
     StreamUrl := Some "http://front/stream";
     FlipH := false; FlipV := true; Rotation := 90 |}.

Definition cam_back : WebcamSettingItem :=
  {| Name := "Back"; SnapshotUrl := Some "http://back/snapshot";
     StreamUrl := Some "http://back/stream";
     FlipH := false; FlipV := false; Rotation := 0 |}.

(** A helper whose platform reports the two cameras. *)
Definition two_cameras (default : option string) : WebcamHelper :=
  {| WebcamPlatformHelperInterface := Ret (Some [cam_front; cam_back]);
     DefaultCameraName := default |}.

Definition empty_disk : Disk := {| settings_file := NoFile; writable := true |}.




(** A camera item as a platform builds it. *)
Definition item_input : WebcamSettingInput :=
  {| in_Name := Some "Front"; in_SnapshotUrl := None;
     in_StreamUrl := Some "/webcam/?action=stream";
     in_FlipH := Some (VInt 0); in_FlipV := Some (VStr "yes");
     in_Rotation := Some 180 |}.

(** A disk whose settings file cannot be written and names [front]. *)
Definition locked_disk : Disk :=
  {| settings_file := JsonObject {[ "DefaultWebcamName" := JString "front" ]};
     writable := false |}.

(** A multipart stream whose reads time out. *)
Definition timeout_response : Response :=
  {| status_code := 200;
     headers := [("Content-Type", u "multipart/x-mixed-replace;boundary=B")];
     raw := λ _ _, ReadRaises (ConnectionError "HTTPConnectionPool: Read timed out.");
     delivered := 0; closed := false |}.

End Examples.

(** * Properties *)

(** ** Strings *)

Lemma lower_length (s : string) : String.length (Py.lower s) = String.length s.
Proof. induction s as [|c s IH]; simpl; [reflexivity | now rewrite IH]. Qed.

Lemma lower_app (a b : string) : Py.lower (a ++ b) = Py.lower a ++ Py.lower b.
Proof. induction a as [|c a IH]; simpl; [reflexivity | now rewrite IH]. Qed.


Lemma string_length_app (a b : string) :
  String.length (a ++ b) = (String.length a + String.length b)%nat.
Proof. induction a as [|c a IH]; simpl; [reflexivity | now rewrite IH]. Qed.


Lemma substring_skip_app (a b : string) (n : nat) :
  substring (String.length a) n (a ++ b) = substring 0 n b.
Proof. induction a as [|c a IH]; simpl; [reflexivity | exact IH]. Qed.

Lemma substring_all (s : string) : substring 0 (String.length s) s = s.
Proof. induction s as [|c s IH]; simpl; [reflexivity | now rewrite IH]. Qed.

Lemma substring_drop_app (a b : string) :
  substring (String.length a) (String.length (a ++ b) - String.length a) (a ++ b) = b.
Proof.
  rewrite substring_skip_app, string_length_app.
  replace (String.length a + String.length b - String.length a)%nat
    with (String.length b) by lia.
  apply substring_all.
Qed.

Lemma index_ge (n m : nat) (s1 s2 : string) :
  String.index n s1 s2 = Some m → (n ≤ m)%nat.
Proof.
  revert n m. induction s2 as [|c s2 IH]; intros n m; simpl.
  - destruct n; [destruct s1|]; intros H; inversion H; lia.
  - destruct n as [|n].
    + intros _. lia.
    + destruct (String.index n s1 s2) as [k|] eqn:E; intros H; inversion H; subst.
      apply IH in E. lia.
Qed.



Lemma substring_nonempty_lt (s s1 : string) (m : nat) :
  substring m (String.length s1) s = s1 → s1 ≠ "" → (m < String.length s)%nat.
Proof.
  revert m. induction s as [|c s IH]; intros m H Hne.
  - destruct m, s1; simpl in H; congruence.
  - destruct m as [|m]; simpl; [lia|].
    simpl in H. apply IH in H; [lia | assumption].
Qed.

Lemma get_is_Some (s : string) (i : nat) :
  (i < String.length s)%nat → ∃ c, String.get i s = Some c.
Proof.
  revert i. induction s as [|c s IH]; intros i H; simpl in H; [lia|].
  destruct i as [|i]; simpl; [eauto | apply IH; lia].
Qed.

(** ** The WebRTC translator *)


Lemma index_absent (s s1 : string) :
  (∀ j, substring j (String.length s1) s ≠ s1) → String.index 0 s1 s = None.
Proof.
  intros H. destruct (String.index 0 s1 s) as [m|] eqn:E; [|reflexivity].
  exfalso. exact (H m (index_correct1 _ _ _ _ E)).
Qed.





(** ** Totality of the URL normalizers *)

Lemma detect_webrtc_returns (url : string) :
  ∃ r, DetectCameraStreamerWebRTCStreamUrlAndTranslate (Some url) = Ret r.
Proof.
  unfold DetectCameraStreamerWebRTCStreamUrlAndTranslate. cbn zeta.
  destruct (_ =? -1); [eauto|].
  destruct (negb _); eauto.
Qed.

Lemma fix_missing_slash_returns (url : string) :
  ∃ r, FixMissingSlashInWebcamUrlIfNeeded (Some url) = Ret r.
Proof.
  unfold FixMissingSlashInWebcamUrlIfNeeded. cbn zeta.
  remember (Py.find (Py.lower url) "?action=" 0) as actionLocation eqn:Ha.
  unfold Py.find in Ha.
  destruct (String.index 0 "?action=" (Py.lower url)) as [m|] eqn:E;
    subst actionLocation.
  2: { rewrite orb_true_r. eauto. }
  destruct (_ || _); [eauto|].
  destruct (Z.of_nat m =? 0) eqn:E0; [eauto|].
  apply Z.eqb_neq in E0.
  assert (Hm : (m < String.length (Py.lower url))%nat).
  { apply (substring_nonempty_lt _ "?action=");
      [exact (index_correct1 _ _ _ _ E) | discriminate]. }
  unfold Py.getitem, Py.norm_index.
  replace (Z.of_nat m - 1 <? 0) with false by (symmetry; apply Z.ltb_ge; lia).
  destruct (get_is_Some (Py.lower url) (Z.to_nat (Z.of_nat m - 1))) as [c Hc]; [lia|].
  rewrite Hc. cbn.
  destruct (Ascii.eqb c "/"); eauto.
Qed.

(** Claim C7.  The claim does not hold on the code:
    [FixMissingSlashInWebcamUrlIfNeeded] raises on an absent URL, where
    [DetectCameraStreamerWebRTCStreamUrlAndTranslate] returns no change.
    On every URL that is present, both return a value. *)
Theorem fix_missing_slash_raises_on_none :
  FixMissingSlashInWebcamUrlIfNeeded None = Raise AttributeError
  ∧ DetectCameraStreamerWebRTCStreamUrlAndTranslate None = Ret None
  ∧ (∀ url, ¬ raises (DetectCameraStreamerWebRTCStreamUrlAndTranslate (Some url)))
  ∧ (∀ url, ¬ raises (FixMissingSlashInWebcamUrlIfNeeded (Some url))).
Proof.
  split; [reflexivity|]. split; [reflexivity|].
  split; intros url [e He].
  - destruct (detect_webrtc_returns url) as [r Hr]. congruence.
  - destruct (fix_missing_slash_returns url) as [r Hr]. congruence.
Qed.

(** The examples of section 8 of the specification for the slash fixer. *)
Example fix_missing_slash_examples :
  FixMissingSlashInWebcamUrlIfNeeded (Some "http://h/webcam?action=stream")
  = Ret (Some "http://h/webcam/?action=stream")
  ∧ FixMissingSlashInWebcamUrlIfNeeded (Some "http://h/webcam/?action=stream")
    = Ret None.
Proof. split; reflexivity. Qed.

(** ** Camera resolution *)

Lemma find_by_name_none (a : list WebcamSettingItem) (n : string) :
  (∀ i, i ∈ a → Py.lower (Name i) ≠ n) → find_by_name a n = None.
Proof.
  induction a as [|i a IH]; intros H; [reflexivity|].
  cbn [find_by_name].
  destruct (String.eqb_spec (Py.lower (Name i)) n) as [E|_].
  - exfalso. apply (H i); [left | exact E].
  - apply IH. intros j Hj. apply H. now right.
Qed.

Lemma ListWebcams_traced_nonempty (self : WebcamHelper) (a : list WebcamSettingItem) :
  WebcamPlatformHelperInterface self = Ret (Some a) → a ≠ [] →
  ListWebcams_traced self = (Some a, []).
Proof.
  intros Hcfg Hne. unfold ListWebcams_traced. rewrite Hcfg.
  destruct a; [contradiction | reflexivity].
Qed.

(** Claim C8.  With a non-empty camera list, a camera name that is given
    (not empty) and equals the name of no item, without regard to case,
    resolves to the item at index 0, never to [None], and one
    error-level record is sent. *)
Theorem unknown_camera_name_resolves_to_first
    (self : WebcamHelper) (a : list WebcamSettingItem) (cameraName : string) :
  WebcamPlatformHelperInterface self = Ret (Some a) →
  a ≠ [] →
  cameraName ≠ "" →
  (∀ i, i ∈ a → Py.lower (Name i) ≠ Py.lower cameraName) →
  _GetWebcamSettingObj self (Some cameraName) = a !! 0%nat
  ∧ _GetWebcamSettingObj self (Some cameraName) ≠ None
  ∧ (_GetWebcamSettingObj_traced self (Some cameraName)).2
    = [(LError, "_GetWebcamSettingObj asked for {cameraName} but we didn't find it.")].
Proof.
  intros Hcfg Hne Hname Hnone.
  unfold _GetWebcamSettingObj, _GetWebcamSettingObj_traced.
  rewrite (ListWebcams_traced_nonempty self a Hcfg Hne).
  destruct a as [|first rest]; [contradiction|].
  destruct cameraName as [|c cameraName]; [contradiction|].
  cbn [length Nat.eqb String.length].
  rewrite (find_by_name_none _ _ Hnone).
  cbn. repeat split. discriminate.
Qed.

Lemma unknown_camera_name_resolves_to_first_witness :
  _GetWebcamSettingObj (Examples.two_cameras (Some "back")) (Some "Garage")
  = Some Examples.cam_front.
Proof.
  apply (unknown_camera_name_resolves_to_first
           (Examples.two_cameras (Some "back"))
           [Examples.cam_front; Examples.cam_back] "Garage").
  - reflexivity.
  - discriminate.
  - discriminate.
  - intros i Hi.
    apply list_elem_of_In in Hi.
    destruct Hi as [<-|[<-|[]]]; vm_compute; discriminate.
Defined.

(** A name that is found is resolved to its item, whatever its case. *)
Example known_camera_name_resolves :
  _GetWebcamSettingObj (Examples.two_cameras None) (Some "BACK") = Some Examples.cam_back.
Proof. reflexivity. Qed.

(** ** The default camera name *)

Lemma lower_nonempty (name : string) :
  name ≠ "" → (Py.len (Py.lower name) =? 0) = false.
Proof.
  intros H. apply Z.eqb_neq. unfold Py.len. rewrite lower_length.
  destruct name; [contradiction | simpl; lia].
Qed.

(** Claim C9, as amended.  For every name that is not empty, when the
    settings file can be written, [SetDefaultCameraName] followed by a
    restart that reloads the file yields the lower-cased name as the
    default camera name; so [Cam1] is read back as [cam1]. *)
Theorem default_camera_name_round_trip
    (name : string) (self : WebcamHelper) (disk : Disk)
    (platform : Outcome (option (list WebcamSettingItem))) :
  name ≠ "" →
  writable disk = true →
  let '(self', disk', _) := SetDefaultCameraName name (self, disk) in
  GetDefaultCameraName self' = Some (Py.lower name)
  ∧ GetDefaultCameraName (Init platform disk') = Some (Py.lower name).
Proof.
  intros Hname Hw. unfold SetDefaultCameraName. rewrite Hw.
  split; [reflexivity|].
  unfold Init, _LoadDefaultCameraName, load_name.
  cbn [settings_file].
  rewrite lookup_singleton_eq. cbn.
  rewrite (lower_nonempty name Hname). reflexivity.
Qed.

Lemma default_camera_name_round_trip_witness :
  let '(self', disk', _) :=
    SetDefaultCameraName "Cam1" (Examples.two_cameras None, Examples.empty_disk) in
  GetDefaultCameraName self' = Some "cam1"
  ∧ GetDefaultCameraName (Init (Ret None) disk') = Some "cam1".
Proof.
  apply (default_camera_name_round_trip "Cam1" (Examples.two_cameras None)
           Examples.empty_disk (Ret None)).
  - discriminate.
  - reflexivity.
Defined.

(** Claim C9 as stated fails for the empty name: it is stored, but the
    reload takes an empty value for no default. *)
Lemma default_camera_name_empty_counterexample :
  let '(self', disk', _) :=
    SetDefaultCameraName "" (Examples.two_cameras None, Examples.empty_disk) in
  GetDefaultCameraName (Init (Ret None) disk') = None
  ∧ GetDefaultCameraName (Init (Ret None) disk') ≠ Some (Py.lower "").
Proof.
  cbn. unfold Init, _LoadDefaultCameraName, load_name. cbn [settings_file].
  rewrite lookup_singleton_eq. cbn. split; [reflexivity | discriminate].
Qed.

(** A write that fails keeps the name in memory and leaves the file. *)
Lemma failed_write_keeps_memory (name : string) (self : WebcamHelper) (disk : Disk) :
  writable disk = false →
  let '(self', disk', _) := SetDefaultCameraName name (self, disk) in
  GetDefaultCameraName self' = Some (Py.lower name) ∧ disk' = disk.
Proof. intros Hw. unfold SetDefaultCameraName. rewrite Hw. split; reflexivity. Qed.

(** ** JPEG header repair *)

Lemma byte_eqb_refl (b : byte) : Byte.eqb b b = true.
Proof. now apply Byte.byte_dec_lb. Qed.

Lemma byte_eqb_neq (a b : byte) : a ≠ b → Byte.eqb a b = false.
Proof.
  intros H. destruct (Byte.eqb a b) eqn:E; [|reflexivity].
  exfalso. apply H. now apply Byte.byte_dec_bl.
Qed.

Lemma walk_S (fuel : nat) (buf : list byte) (pos : nat) :
  walk (S fuel) buf pos
  = if negb (pos <? length buf)%nat then Unchanged
    else if (length buf <=? pos + 1)%nat then Unchanged
    else match Bytes.getitem buf pos with
         | Raise e => Failed e
         | Ret marker =>
             if negb (Byte.eqb marker xff) then Unchanged
             else match Bytes.getitem buf (pos + 1) with
                  | Raise e => Failed e
                  | Ret segmentType =>
                      if Byte.eqb segmentType xda then Unchanged
                      else if Byte.eqb segmentType xe0 then
                        match repair_identifier buf (pos + 4) with
                        | Ret None => Unchanged
                        | Ret (Some bufArray) => Rewritten bufArray
                        | Raise e => Failed e
                        end
                      else match segment_length buf (pos + 2) with
                           | Raise e => Failed e
                           | Ret segLen => walk fuel buf (pos + 2 + segLen)
                           end
                  end
         end.
Proof. reflexivity. Qed.

(** Every round moves at least two bytes forward, so a fuel of the
    length of the buffer is never used up. *)
Lemma walk_fuel (fuel : nat) (buf : list byte) (pos : nat) :
  (length buf ≤ fuel + pos)%nat → walk fuel buf pos ≠ OutOfFuel.
Proof.
  revert pos. induction fuel as [|fuel IH]; intros pos Hlen.
  - cbn [walk]. destruct (Nat.ltb_spec pos (length buf)); [lia | discriminate].
  - rewrite walk_S.
    destruct (negb _); [discriminate|].
    destruct (_ <=? _)%nat; [discriminate|].
    destruct (Bytes.getitem buf pos) as [marker|]; [|discriminate].
    destruct (negb _); [discriminate|].
    destruct (Bytes.getitem buf (pos + 1)) as [segmentType|]; [|discriminate].
    destruct (Byte.eqb segmentType xda); [discriminate|].
    destruct (Byte.eqb segmentType xe0).
    + destruct (repair_identifier buf (pos + 4)) as [[?|]|]; discriminate.
    + destruct (segment_length buf (pos + 2)) as [segLen|]; [|discriminate].
      apply IH. lia.
Qed.

Lemma scan_jpeg_terminates (buf : list byte) : scan_jpeg buf ≠ OutOfFuel.
Proof.
  unfold scan_jpeg. destruct buf as [|b0 [|b1 t]]; try discriminate.
  destruct (_ || _); [discriminate|].
  apply walk_fuel. lia.
Qed.

(** The loop reaches every visited position with enough fuel left. *)
Lemma walk_visits (buf : list byte) (pos : nat) :
  visits buf pos →
  ∃ fuel, (length buf ≤ fuel + pos)%nat ∧ walk (length buf) buf 2 = walk fuel buf pos.
Proof.
  induction 1 as [|pos segmentType hi lo _ [fuel [Hfuel IH]] Hff Hty Hda He0 Hhi Hlo].
  - exists (length buf). split; [lia | reflexivity].
  - pose proof (lookup_lt_Some _ _ _ Hlo) as Hlt.
    destruct fuel as [|fuel]; [lia|].
    exists fuel. split; [lia|].
    rewrite IH, walk_S.
    destruct (Nat.ltb_spec pos (length buf)); [|lia].
    destruct (Nat.leb_spec (length buf) (pos + 1)); [lia|].
    unfold segment_length, Bytes.getitem.
    replace (pos + 2 + 1)%nat with (pos + 3)%nat by lia.
    rewrite Hff, Hty, Hhi, Hlo. cbn.
    rewrite (byte_eqb_neq _ _ Hda), (byte_eqb_neq _ _ He0). reflexivity.
Qed.

Lemma getitem_shift (pre l : list byte) (k : nat) :
  Bytes.getitem (pre ++ l)%list (length pre + k) = Bytes.getitem l k.
Proof.
  unfold Bytes.getitem. rewrite lookup_app_r by lia.
  now replace (length pre + k - length pre)%nat with k by lia.
Qed.

Lemma needs_changes_shift (pre l : list byte) (k : nat) :
  needs_changes (pre ++ l)%list (length pre + k) = needs_changes l k.
Proof.
  unfold needs_changes, is_zero_at, is_nonzero_at.
  rewrite <- !Nat.add_assoc, !getitem_shift. reflexivity.
Qed.

Lemma store_if_zero_shift (pre l : list byte) (k : nat) (v : byte) :
  store_if_zero (pre ++ l)%list (length pre + k) v
  = match store_if_zero l k v with
    | Ret l' => Ret (pre ++ l')%list
    | Raise e => Raise e
    end.
Proof.
  unfold store_if_zero. rewrite getitem_shift.
  destruct (Bytes.getitem l k) as [b|]; cbn; [|reflexivity].
  destruct (Byte.eqb b x00); [|reflexivity].
  now rewrite insert_app_r.
Qed.

Lemma clear_if_set_shift (pre l : list byte) (k : nat) :
  clear_if_set (pre ++ l)%list (length pre + k)
  = match clear_if_set l k with
    | Ret l' => Ret (pre ++ l')%list
    | Raise e => Raise e
    end.
Proof.
  unfold clear_if_set. rewrite getitem_shift.
  destruct (Bytes.getitem l k) as [b|]; cbn; [|reflexivity].
  destruct (negb (Byte.eqb b x00)); [|reflexivity].
  now rewrite insert_app_r.
Qed.

Lemma repair_identifier_shift (pre l : list byte) :
  repair_identifier (pre ++ l)%list (length pre)
  = match repair_identifier l 0 with
    | Ret (Some l') => Ret (Some (pre ++ l')%list)
    | Ret None => Ret None
    | Raise e => Raise e
    end.
Proof.
  unfold repair_identifier.
  rewrite <- (Nat.add_0_r (length pre)) at 1.
  rewrite needs_changes_shift.
  destruct (needs_changes l 0) as [[|]|]; cbn; try reflexivity.
  rewrite <- (Nat.add_0_r (length pre)) at 1.
  rewrite store_if_zero_shift.
  destruct (store_if_zero l 0 x4a) as [l1|]; cbn; [|reflexivity].
  rewrite store_if_zero_shift.
  destruct (store_if_zero l1 1 x46) as [l2|]; cbn; [|reflexivity].
  rewrite store_if_zero_shift.
  destruct (store_if_zero l2 2 x49) as [l3|]; cbn; [|reflexivity].
  rewrite store_if_zero_shift.
  destruct (store_if_zero l3 3 x46) as [l4|]; cbn; [|reflexivity].
  rewrite clear_if_set_shift.
  destruct (clear_if_set l4 4) as [l5|]; reflexivity.
Qed.

(** The APP0 branch on the identifier bytes themselves. *)
Lemma repair_identifier_nonconformant (i0 i1 i2 i3 i4 : byte) (rest : list byte) :
  i0 = x00 ∨ i1 = x00 ∨ i2 = x00 ∨ i3 = x00 ∨ i4 = x00
  ∨ (∃ i5 rest', rest = i5 :: rest' ∧ i5 ≠ x00) →
  repair_identifier (i0 :: i1 :: i2 :: i3 :: i4 :: rest) 0
  = Ret (Some (or_default i0 x4a :: or_default i1 x46 :: or_default i2 x49
               :: or_default i3 x46 :: x00 :: rest)).
Proof.
  intros Hnc.
  unfold repair_identifier, needs_changes, is_zero_at, is_nonzero_at,
    store_if_zero, clear_if_set, or_default, Bytes.getitem.
  cbn.
  destruct (Byte.eqb i0 x00) eqn:E0; destruct (Byte.eqb i1 x00) eqn:E1;
    destruct (Byte.eqb i2 x00) eqn:E2; destruct (Byte.eqb i3 x00) eqn:E3;
    destruct (Byte.eqb i4 x00) eqn:E4; cbn;
    repeat (rewrite ?E0, ?E1, ?E2, ?E3, ?E4; cbn);
    try (apply Byte.byte_dec_bl in E4; subst i4; reflexivity);
    try reflexivity.
  pose proof (Byte.eqb_false E0). pose proof (Byte.eqb_false E1).
  pose proof (Byte.eqb_false E2). pose proof (Byte.eqb_false E3).
  pose proof (Byte.eqb_false E4).
  destruct Hnc as [?|[?|[?|[?|[?|(i5 & rest' & -> & Hi5)]]]]];
    try contradiction.
  cbn. rewrite (byte_eqb_neq _ _ Hi5). cbn.
  repeat (rewrite ?E0, ?E1, ?E2, ?E3, ?E4; cbn).
  reflexivity.
Qed.

Lemma repair_identifier_conformant (i0 i1 i2 i3 i4 : byte) (rest : list byte) :
  i0 ≠ x00 → i1 ≠ x00 → i2 ≠ x00 → i3 ≠ x00 → i4 ≠ x00 →
  rest = [] ∨ (∃ rest', rest = x00 :: rest') →
  repair_identifier (i0 :: i1 :: i2 :: i3 :: i4 :: rest) 0 = Ret None
  ∨ repair_identifier (i0 :: i1 :: i2 :: i3 :: i4 :: rest) 0 = Raise IndexError.
Proof.
  intros H0 H1 H2 H3 H4 Hrest.
  unfold repair_identifier, needs_changes, is_zero_at, is_nonzero_at, Bytes.getitem.
  cbn.
  rewrite !byte_eqb_neq by assumption. cbn.
  destruct Hrest as [->|[rest' ->]]; cbn; [right | left]; reflexivity.
Qed.

(** The scan of a JPEG buffer in which the loop reaches an APP0 marker
    at [pos] comes down to the APP0 branch on the bytes after [pre]. *)
Lemma scan_jpeg_at_app0 (pre l : list byte) (pos : nat) :
  let buf := (pre ++ l)%list in
  (∃ t, buf = xff :: xd8 :: t) →
  visits buf pos →
  buf !! pos = Some xff →
  buf !! (pos + 1)%nat = Some xe0 →
  length pre = (pos + 4)%nat →
  scan_jpeg buf
  = match repair_identifier l 0 with
    | Ret None => Unchanged
    | Ret (Some l') => Rewritten (pre ++ l')%list
    | Raise e => Failed e
    end.
Proof.
  intros buf [t Ht] Hvis Hff He0 Hpre.
  unfold scan_jpeg. rewrite Ht at 1. cbn [Byte.eqb negb orb].
  rewrite !byte_eqb_refl. cbn [negb orb].
  destruct (walk_visits buf pos Hvis) as [fuel [Hfuel ->]].
  pose proof (lookup_lt_Some _ _ _ He0) as Hlt.
  destruct fuel as [|fuel]; [lia|].
  rewrite walk_S.
  destruct (Nat.ltb_spec pos (length buf)); [|lia].
  destruct (Nat.leb_spec (length buf) (pos + 1)); [lia|].
  unfold Bytes.getitem at 1 2. rewrite Hff, He0. cbn.
  subst buf. rewrite <- Hpre, repair_identifier_shift.
  destruct (repair_identifier l 0) as [[l'|]|]; reflexivity.
Qed.

(** Claim C4, as amended.  A buffer that does not start with FF D8 is
    returned unchanged.  In a JPEG buffer whose APP0 segment the walk
    reaches and whose identifier is not the expected one (one of its first
    five bytes is zero, or the sixth is not), every zero byte among the
    first four becomes the byte of [JFIF] at that place and the fifth
    byte becomes zero; every other byte, the sixth included, is kept.  So
    a zeroed identifier reads 4A 46 49 46 00 afterwards, and a buffer
    whose identifier already is [JFIF] followed by a zero byte is returned
    byte for byte. *)
Theorem jpeg_identifier_repair :
  (∀ buf : list byte, (∀ t, buf ≠ xff :: xd8 :: t) → ensured_body buf = buf)
  ∧ (∀ (pre : list byte) (i0 i1 i2 i3 i4 : byte) (rest : list byte) (pos : nat),
        let buf := (pre ++ i0 :: i1 :: i2 :: i3 :: i4 :: rest)%list in
        (∃ t, buf = xff :: xd8 :: t) →
        visits buf pos →
        buf !! pos = Some xff →
        buf !! (pos + 1)%nat = Some xe0 →
        length pre = (pos + 4)%nat →
        (i0 = x00 ∨ i1 = x00 ∨ i2 = x00 ∨ i3 = x00 ∨ i4 = x00
         ∨ (∃ i5 rest', rest = i5 :: rest' ∧ i5 ≠ x00) →
         ensured_body buf
         = (pre ++ or_default i0 x4a :: or_default i1 x46 :: or_default i2 x49
                :: or_default i3 x46 :: x00 :: rest)%list)
        ∧ (i0 = x4a → i1 = x46 → i2 = x49 → i3 = x46 → i4 = x00 →
           ensured_body buf = buf))
  ∧ ensured_body [xff; xd8; xff; xe0; x00; x10; x00; x00; x00; x00; x00; x00]
    = [xff; xd8; xff; xe0; x00; x10; x4a; x46; x49; x46; x00; x00].
Proof.
  split; [|split; [|reflexivity]].
  - intros buf Hnot. unfold ensured_body, scan_jpeg.
    destruct buf as [|b0 [|b1 t]]; try reflexivity.
    destruct (Byte.eqb b0 xff) eqn:E0; [|reflexivity].
    destruct (Byte.eqb b1 xd8) eqn:E1; [|reflexivity].
    apply Byte.byte_dec_bl in E0, E1. subst. now destruct (Hnot t).
  - intros pre i0 i1 i2 i3 i4 rest pos buf Hjpeg Hvis Hff He0 Hpre.
    assert (Hnc : i0 = x00 ∨ i1 = x00 ∨ i2 = x00 ∨ i3 = x00 ∨ i4 = x00
                  ∨ (∃ i5 rest', rest = i5 :: rest' ∧ i5 ≠ x00) →
                  ensured_body buf
                  = (pre ++ or_default i0 x4a :: or_default i1 x46 :: or_default i2 x49
                         :: or_default i3 x46 :: x00 :: rest)%list).
    { intros Hnc. unfold ensured_body.
      subst buf. rewrite (scan_jpeg_at_app0 pre _ pos Hjpeg Hvis Hff He0 Hpre).
      now rewrite (repair_identifier_nonconformant _ _ _ _ _ _ Hnc). }
    split; [exact Hnc|].
    intros -> -> -> -> ->. rewrite Hnc by tauto. reflexivity.
Qed.

Lemma jpeg_identifier_repair_witness :
  ensured_body ([xff; xd8; xff; xfe; x00; x03; x41; xff; xe0; x00; x10]
                ++ [x4a; x00; x00; x46; x07; x01; x01])
  = [xff; xd8; xff; xfe; x00; x03; x41; xff; xe0; x00; x10;
     x4a; x46; x49; x46; x00; x01; x01].
Proof.
  refine (proj1 (proj1 (proj2 jpeg_identifier_repair)
                   [xff; xd8; xff; xfe; x00; x03; x41; xff; xe0; x00; x10]
                   x4a x00 x00 x46 x07 [x01; x01] 7%nat _ _ _ _ _) _).
  - eexists. reflexivity.
  - exact (visits_next
             [xff; xd8; xff; xfe; x00; x03; x41; xff; xe0; x00; x10;
              x4a; x00; x00; x46; x07; x01; x01]
             2 xfe x00 x03 (visits_first _) eq_refl eq_refl
             ltac:(discriminate) ltac:(discriminate) eq_refl eq_refl).
  - reflexivity.
  - reflexivity.
  - reflexivity.
  - right. left. reflexivity.
Defined.

(** Claim C4 as stated fails on the sixth byte: after a zeroed identifier
    followed by 01, the identifier reads 4A 46 49 46 00 and the sixth
    byte is still 01. *)
Lemma jpeg_sixth_byte_counterexample :
  let buf := [xff; xd8; xff; xe0; x00; x10; x00; x00; x00; x00; x00; x01] in
  take 5 (drop 6 (ensured_body buf)) = [x4a; x46; x49; x46; x00]
  ∧ ensured_body buf !! 11%nat = Some x01
  ∧ ensured_body buf !! 11%nat ≠ Some x00.
Proof. cbn. repeat split. discriminate. Qed.

(** When the first five bytes are set and the sixth is zero or missing,
    the buffer is returned as it is. *)
Lemma jpeg_identifier_left_alone (pre : list byte) (i0 i1 i2 i3 i4 : byte)
    (rest : list byte) (pos : nat) :
  let buf := (pre ++ i0 :: i1 :: i2 :: i3 :: i4 :: rest)%list in
  (∃ t, buf = xff :: xd8 :: t) →
  visits buf pos →
  buf !! pos = Some xff →
  buf !! (pos + 1)%nat = Some xe0 →
  length pre = (pos + 4)%nat →
  i0 ≠ x00 → i1 ≠ x00 → i2 ≠ x00 → i3 ≠ x00 → i4 ≠ x00 →
  rest = [] ∨ (∃ rest', rest = x00 :: rest') →
  ensured_body buf = buf.
Proof.
  intros buf Hjpeg Hvis Hff He0 Hpre H0 H1 H2 H3 H4 Hrest.
  unfold ensured_body. subst buf.
  rewrite (scan_jpeg_at_app0 pre _ pos Hjpeg Hvis Hff He0 Hpre).
  destruct (repair_identifier_conformant i0 i1 i2 i3 i4 rest H0 H1 H2 H3 H4 Hrest)
    as [-> | ->]; reflexivity.
Qed.

(** ** The frame extractor *)


(** The response is closed when the [with] block is left. *)
Lemma with_response_closes {A} (body : Ext A) (st : ExtState) :
  closed (ext_response (with_response body st).2) = true.
Proof. unfold with_response. destruct (body st). reflexivity. Qed.


(** The call for a response that has status 200. *)
Lemma extraction_status_ok (C : Collaborators) (url : string)
    (res : HttpResult) (r : Response) :
  MakeHttpCall C url = Some res → Result res = Some r → status_code r = 200 →
  ∃ st0, ext_response st0 = r ∧
    let out := with_response (frame_from_response url) st0 in
    returned (_GetSnapshotFromStream C url)
    = match out.1 with Ret v => Ret v | Raise _ => Ret None end
    ∧ response_after (_GetSnapshotFromStream C url) = Some (ext_response out.2).
Proof.
  intros Hcall Hres Hstatus.
  exists {| ext_response := r;
            ext_log := [(LDebug, "_GetSnapshotFromStream - Trying to get a snapshot using THE STREAM URL")] |}.
  split; [reflexivity|].
  unfold _GetSnapshotFromStream. rewrite Hcall, Hres, Hstatus. cbn [Z.eqb negb].
  destruct (with_response _ _) as [[v|e] st]; cbn; split; reflexivity.
Qed.


(** The call for a response whose status is not 200: nothing is done
    with the response. *)
Lemma extraction_bad_status (C : Collaborators) (url : string)
    (res : HttpResult) (r : Response) :
  MakeHttpCall C url = Some res → Result res = Some r → status_code r ≠ 200 →
  returned (_GetSnapshotFromStream C url) = Ret None
  ∧ response_after (_GetSnapshotFromStream C url) = Some r.
Proof.
  intros Hcall Hres Hstatus.
  unfold _GetSnapshotFromStream. rewrite Hcall, Hres.
  apply Z.eqb_neq in Hstatus. rewrite Hstatus. split; reflexivity.
Qed.

(** Once the status is 200, the response is closed on every way out. *)
Lemma extraction_closes_after_status_ok (C : Collaborators) (url : string)
    (res : HttpResult) (r : Response) :
  MakeHttpCall C url = Some res → Result res = Some r → status_code r = 200 →
  ∃ r', response_after (_GetSnapshotFromStream C url) = Some r' ∧ closed r' = true.
Proof.
  intros Hcall Hres Hstatus.
  destruct (extraction_status_ok C url res r Hcall Hres Hstatus)
    as (st0 & _ & _ & ->).
  eexists. split; [reflexivity | apply with_response_closes].
Qed.

(** Claim C5.  The claim does not hold on the code: when the HTTP call
    hands out a response whose status is not 200, the function returns
    [None] before the [with] block is entered and the response is left
    as it was, so an open response stays open. *)
Theorem bad_status_response_left_open (C : Collaborators) (url : string)
    (res : HttpResult) (r : Response) :
  MakeHttpCall C url = Some res →
  Result res = Some r →
  status_code r ≠ 200 →
  closed r = false →
  returned (_GetSnapshotFromStream C url) = Ret None
  ∧ ∃ r', response_after (_GetSnapshotFromStream C url) = Some r'
          ∧ closed r' = false.
Proof.
  intros Hcall Hres Hstatus Hopen.
  destruct (extraction_bad_status C url res r Hcall Hres Hstatus) as [-> ->].
  split; [reflexivity | eauto].
Qed.

Lemma bad_status_response_left_open_witness :
  ∃ r', response_after (_GetSnapshotFromStream
                          (Examples.always Examples.not_found_response)
                          "http://h/stream") = Some r'
        ∧ closed r' = false.
Proof.
  apply (bad_status_response_left_open
           (Examples.always Examples.not_found_response) "http://h/stream"
           (Examples.result_of "http://h/stream" Examples.not_found_response)
           Examples.not_found_response).
  - reflexivity.
  - reflexivity.
  - discriminate.
  - reflexivity.
Defined.

(** *** The ways the block under [with] gives up *)

Section FrameFailures.

Variables (url : string) (st : ExtState).

Let r : Response := ext_response st.


Variable d : list byte.
Hypothesis Hread : raw r (delivered r) 300 = ReadData d.




End FrameFailures.





(** *** Decoding and searching a header block *)






(** *** The return of the frame *)


Section FrameSuccess.

Variables (url : string) (r : Response).
Variables (hdr payload rest : list byte) (contentType : ustr).

Let s : list byte := (hdr ++ [x0d; x0a; x0d; x0a] ++ payload ++ rest)%list.

Hypothesis Hmulti : isMultipartStream (headers r) = true.
Hypothesis Hraw : raw r = stream_of s.
Hypothesis Hdelivered : delivered r = 0%nat.
Hypothesis Hascii : Forall (λ b, (Byte.to_N b < 128)%N) hdr.
Hypothesis Hfirst :
  U.find (Byte.to_N <$> (hdr ++ [x0d; x0a; x0d; x0a])%list) endOfAllHeadersMatch
  = Z.of_nat (length hdr).
Hypothesis Hfit : (length hdr + 4 ≤ 300)%nat.
Hypothesis Hscan :
  scan_headers (U.split (Bytes.decode (take 300 s)) endOfHeaderMatch) (0, None)
  = Ret (Z.of_nat (length payload), Some contentType).
Hypothesis Hpayload : payload ≠ [].







End FrameSuccess.




(** The scan of the header lines runs over all of the first 300 bytes:
    when a second part starts within them, its length is the one that is
    kept.  The claim is silent on this case, and so is the theorem. *)
Example frame_second_part_in_window :
  ∃ r',
    returned (_GetSnapshotFromStream
                (Examples.always (Examples.multipart_response Examples.two_part_body))
                "http://h/stream")
    = Ret (Some {| Result := Some r'; Url := "http://h/stream"; Success := true;
                   FullBodyBuffer := Some [xff; xd8; xff; xd9; x0d; x0a] |})
    ∧ headers r' = [("content-type", u "image/jpeg"); ("content-length", u "6")].
Proof. eexists. split; vm_compute; reflexivity. Qed.

(** A stream that ends before the frame is complete gives no frame. *)
Example frame_cut_short :
  returned (_GetSnapshotFromStream
              (Examples.always
                 (Examples.multipart_response
                    (Examples.part_head "10" ++ Examples.payload)%list))
              "http://h/stream")
  = Ret None.
Proof. vm_compute. reflexivity. Qed.

(** ** Snapshots *)



(** ** Oracle requests *)








(** * Further properties of the helper *)

(** ** Camera resolution *)

Lemma find_by_name_elem (a : list WebcamSettingItem) (n : string) (i : WebcamSettingItem) :
  find_by_name a n = Some i → i ∈ a ∧ Py.lower (Name i) = n.
Proof.
  induction a as [|j a IH]; [discriminate|].
  cbn [find_by_name].
  destruct (String.eqb_spec (Py.lower (Name j)) n) as [E|_].
  - intros [= <-]. split; [left | exact E].
  - intros H. destruct (IH H) as [Hin Hn]. split; [now right | exact Hn].
Qed.

Lemma find_by_name_first (pre rest : list WebcamSettingItem) (i : WebcamSettingItem)
    (n : string) :
  Py.lower (Name i) = n →
  (∀ j, j ∈ pre → Py.lower (Name j) ≠ n) →
  find_by_name (pre ++ i :: rest)%list n = Some i.
Proof.
  intros Hi. induction pre as [|j pre IH]; intros Hpre; cbn [app find_by_name].
  - rewrite Hi, String.eqb_refl. reflexivity.
  - destruct (String.eqb_spec (Py.lower (Name j)) n) as [E|_].
    + exfalso. apply (Hpre j); [left | exact E].
    + apply IH. intros k Hk. apply Hpre. now right.
Qed.

(** X1.  The camera a request resolves to is always one of the cameras
    the platform lists, and there is none only when the platform gives no
    list, an empty one, or raises. *)
Theorem resolved_camera_is_listed (self : WebcamHelper) (cameraName : option string) :
  (∀ i, _GetWebcamSettingObj self cameraName = Some i →
        ∃ a, WebcamPlatformHelperInterface self = Ret (Some a) ∧ i ∈ a)
  ∧ (_GetWebcamSettingObj self cameraName = None ↔ ListWebcams self = None).
Proof.
  unfold _GetWebcamSettingObj, _GetWebcamSettingObj_traced, ListWebcams,
    ListWebcams_traced.
  destruct (WebcamPlatformHelperInterface self) as [[a|]|e]; cbn;
    try (split; [intros ? H; discriminate H | tauto]).
  destruct a as [|first rest]; cbn -[find_by_name]; [split; [intros ? H; discriminate H | tauto]|].
  set (name := match cameraName with
               | Some n => if (String.length n =? 0)%nat then GetDefaultCameraName self
                           else Some n
               | None => GetDefaultCameraName self
               end).
  destruct name as [n|]; cbn -[find_by_name].
  - destruct (find_by_name (first :: rest) (Py.lower n)) as [i|] eqn:E; cbn -[find_by_name].
    + split; [|split; intros H; discriminate H].
      intros ? [= <-]. exists (first :: rest). split; [reflexivity|].
      exact (proj1 (find_by_name_elem _ _ _ E)).
    + split; [|split; intros H; discriminate H].
      intros ? [= <-]. exists (first :: rest). split; [reflexivity | left].
  - split; [|split; intros H; discriminate H].
    intros ? [= <-]. exists (first :: rest). split; [reflexivity | left].
Qed.

(** X2.  A name that is given resolves to the first listed camera whose
    name equals it without regard to case, and nothing is reported. *)
Theorem known_camera_name_resolves_to_first_match (self : WebcamHelper)
    (pre rest : list WebcamSettingItem) (i : WebcamSettingItem) (cameraName : string) :
  WebcamPlatformHelperInterface self = Ret (Some (pre ++ i :: rest)%list) →
  cameraName ≠ "" →
  Py.lower (Name i) = Py.lower cameraName →
  (∀ j, j ∈ pre → Py.lower (Name j) ≠ Py.lower cameraName) →
  _GetWebcamSettingObj_traced self (Some cameraName) = (Some i, []).
Proof.
  intros Hcfg Hname Hi Hpre.
  unfold _GetWebcamSettingObj_traced.
  rewrite (ListWebcams_traced_nonempty self _ Hcfg) by (now destruct pre).
  replace (length (pre ++ i :: rest) =? 0)%nat with false by (now destruct pre).
  destruct cameraName as [|c cameraName]; [contradiction|].
  cbn [String.length Nat.eqb].
  rewrite (find_by_name_first pre rest i _ Hi Hpre). reflexivity.
Qed.

Lemma known_camera_name_resolves_to_first_match_witness :
  _GetWebcamSettingObj_traced (Examples.two_cameras None) (Some "bAcK")
  = (Some Examples.cam_back, []).
Proof.
  apply (known_camera_name_resolves_to_first_match (Examples.two_cameras None)
           [Examples.cam_front] [] Examples.cam_back "bAcK").
  - reflexivity.
  - discriminate.
  - reflexivity.
  - intros j Hj. apply list_elem_of_In in Hj.
    destruct Hj as [<-|[]]. vm_compute. discriminate.
Defined.

(** X3.  A request without a camera name and one with the empty name are
    resolved alike: as a request for the default camera name when there
    is one, and to the camera at index 0, with nothing reported, when
    there is none. *)
Theorem nameless_request_uses_default (self : WebcamHelper) :
  _GetWebcamSettingObj_traced self None = _GetWebcamSettingObj_traced self (Some "")
  ∧ (∀ d, DefaultCameraName self = Some d → d ≠ "" →
          _GetWebcamSettingObj_traced self None
          = _GetWebcamSettingObj_traced self (Some d))
  ∧ (∀ a, DefaultCameraName self = None →
          WebcamPlatformHelperInterface self = Ret (Some a) → a ≠ [] →
          _GetWebcamSettingObj_traced self None = (a !! 0%nat, [])).
Proof.
  split; [reflexivity|]. split.
  - intros d Hd Hne. unfold _GetWebcamSettingObj_traced, GetDefaultCameraName.
    rewrite Hd. destruct d; [contradiction | reflexivity].
  - intros a Hd Hcfg Hne. unfold _GetWebcamSettingObj_traced, GetDefaultCameraName.
    rewrite (ListWebcams_traced_nonempty self a Hcfg Hne), Hd.
    destruct a; [contradiction | reflexivity].
Qed.

Lemma nameless_request_uses_default_witness :
  _GetWebcamSettingObj_traced (Examples.two_cameras (Some "back")) None
  = _GetWebcamSettingObj_traced (Examples.two_cameras (Some "back")) (Some "back").
Proof.
  apply (proj1 (proj2 (nameless_request_uses_default
                         (Examples.two_cameras (Some "back")))) "back").
  - reflexivity.
  - discriminate.
Defined.

Lemma lower_char_idem (c : ascii) : Py.lower_char (Py.lower_char c) = Py.lower_char c.
Proof. destruct c as [[] [] [] [] [] [] [] []]; vm_compute; reflexivity. Qed.

Lemma lower_idem (s : string) : Py.lower (Py.lower s) = Py.lower s.
Proof.
  induction s as [|c s IH]; [reflexivity|].
  cbn [Py.lower]. now rewrite lower_char_idem, IH.
Qed.

(** X4.  Once a name that is not empty has been set as the default,
    requests without a camera name are resolved as requests for that
    name, whether or not the write of the settings file went through. *)
Theorem set_default_redirects_nameless_requests
    (name : string) (self : WebcamHelper) (disk : Disk) :
  name ≠ "" →
  let self' := (SetDefaultCameraName name (self, disk)).1.1 in
  _GetWebcamSettingObj_traced self' None = _GetWebcamSettingObj_traced self (Some name).
Proof.
  intros Hname.
  assert (Hself : (SetDefaultCameraName name (self, disk)).1.1
                  = {| WebcamPlatformHelperInterface := WebcamPlatformHelperInterface self;
                       DefaultCameraName := Some (Py.lower name) |}).
  { unfold SetDefaultCameraName. destruct (writable disk); reflexivity. }
  cbn zeta. rewrite Hself.
  unfold _GetWebcamSettingObj_traced, ListWebcams_traced, GetDefaultCameraName.
  cbn [WebcamPlatformHelperInterface DefaultCameraName].
  rewrite lower_idem.
  destruct name as [|c name]; [contradiction|].
  reflexivity.
Qed.

Lemma set_default_redirects_nameless_requests_witness :
  _GetWebcamSettingObj
    (SetDefaultCameraName "BACK" (Examples.two_cameras None, Examples.locked_disk)).1.1
    None
  = Some Examples.cam_back.
Proof.
  unfold _GetWebcamSettingObj.
  rewrite (set_default_redirects_nameless_requests "BACK" (Examples.two_cameras None)
             Examples.locked_disk).
  - reflexivity.
  - discriminate.
Defined.

(** ** The settings file *)

(** X5.  A start of the helper has a default camera name exactly when the
    settings file is a JSON object whose [DefaultWebcamName] is a text
    that is not empty, and that text is the name.  A missing or malformed
    file, a missing key, a null, a number and the empty text all give no
    default. *)
Theorem loaded_default_name_iff
    (platform : Outcome (option (list WebcamSettingItem))) (disk : Disk) (s : string) :
  GetDefaultCameraName (Init platform disk) = Some s
  ↔ ∃ fields, settings_file disk = JsonObject fields
              ∧ fields !! "DefaultWebcamName" = Some (JString s)
              ∧ s ≠ "".
Proof.
  unfold Init, _LoadDefaultCameraName, load_name, GetDefaultCameraName.
  split.
  - destruct (settings_file disk) as [| |fields]; cbn; try discriminate.
    destruct (fields !! "DefaultWebcamName") as [[|t|n]|] eqn:E; cbn;
      try discriminate.
    destruct t as [|c t]; cbn; [discriminate|].
    intros [= <-]. exists fields. repeat split; [exact E | discriminate].
  - intros (fields & -> & E & Hs). cbn. rewrite E. cbn.
    destruct s as [|c s]; [contradiction | reflexivity].
Qed.

Lemma loaded_default_name_iff_witness :
  GetDefaultCameraName (Init (Ret None) Examples.locked_disk) = Some "front".
Proof.
  apply (proj2 (loaded_default_name_iff (Ret None) Examples.locked_disk "front")).
  eexists. split; [reflexivity|]. split; [reflexivity | discriminate].
Defined.



(** ** Validation *)

Lemma none_or_empty_false (s : option string) :
  none_or_empty s = false ↔ ∃ t, s = Some t ∧ t ≠ "".
Proof.
  unfold none_or_empty. split.
  - destruct s as [[|c t]|]; try discriminate. intros _. eexists.
    split; [reflexivity | discriminate].
  - intros (t & -> & Ht). destruct t; [contradiction | reflexivity].
Qed.

(** X7.  [Validate] accepts an item exactly when its name is not empty,
    its rotation is 0, 90, 180 or 270, one of its two URLs is not empty,
    and both flip values are there. *)
Theorem Validate_accepts_iff (self : WebcamSettingInput) :
  (Validate self).1.1 = true
  ↔ (∃ n, in_Name self = Some n ∧ n ≠ "")
    ∧ (∃ r, in_Rotation self = Some r ∧ (r = 0 ∨ r = 90 ∨ r = 180 ∨ r = 270))
    ∧ ((∃ u, in_SnapshotUrl self = Some u ∧ u ≠ "")
       ∨ (∃ u, in_StreamUrl self = Some u ∧ u ≠ ""))
    ∧ in_FlipH self ≠ None
    ∧ in_FlipV self ≠ None.
Proof.
  unfold Validate.
  destruct (none_or_empty (in_Name self)) eqn:En.
  { split; [discriminate|]. intros (Hn & _).
    apply none_or_empty_false in Hn. congruence. }
  apply none_or_empty_false in En.
  destruct (in_Rotation self) as [r|] eqn:Er.
  2: { split; [discriminate|]. intros (_ & (r & Hr & _) & _). discriminate. }
  destruct (negb (r =? 0) && negb (r =? 90) && negb (r =? 180) && negb (r =? 270))
    eqn:Ebad.
  { split; [discriminate|]. intros (_ & (r' & [= <-] & Hr) & _).
    destruct Hr as [->|[->|[->| ->]]]; discriminate. }
  assert (Hr : r = 0 ∨ r = 90 ∨ r = 180 ∨ r = 270).
  { destruct (Z.eqb_spec r 0); [tauto|]. destruct (Z.eqb_spec r 90); [tauto|].
    destruct (Z.eqb_spec r 180); [tauto|]. destruct (Z.eqb_spec r 270); [tauto|].
    discriminate. }
  destruct (none_or_empty (in_SnapshotUrl self)) eqn:Es;
    destruct (none_or_empty (in_StreamUrl self)) eqn:Et; cbn [andb].
  1: { split; [discriminate|]. intros (_ & _ & [Hu|Hu] & _);
       apply none_or_empty_false in Hu; congruence. }
  all: assert (Hurl : (∃ u, in_SnapshotUrl self = Some u ∧ u ≠ "")
                      ∨ (∃ u, in_StreamUrl self = Some u ∧ u ≠ ""))
         by (first [left; now apply none_or_empty_false
                   | right; now apply none_or_empty_false]).
  all: destruct (in_FlipH self) as [h|] eqn:Eh;
       [|split; [discriminate | intros (_ & _ & _ & H & _); congruence]].
  all: cbn [set_FlipH in_FlipV].
  all: destruct (in_FlipV self) as [v|] eqn:Ev;
       [|split; [discriminate | intros (_ & _ & _ & _ & H); congruence]].
  all: split; [intros _ | reflexivity].
  all: repeat split; eauto; discriminate.
Qed.

Lemma Validate_accepts_iff_witness : (Validate Examples.item_input).1.1 = true.
Proof.
  apply (proj2 (Validate_accepts_iff Examples.item_input)).
  split; [eexists; split; [reflexivity | discriminate]|].
  split; [eexists; split; [reflexivity | tauto]|].
  split; [right; eexists; split; [reflexivity | discriminate]|].
  split; discriminate.
Defined.

(** X8.  An item that [Validate] accepts leaves it with both flip values
    turned into booleans by their truth value and every other field as it
    was, and nothing is reported; an item it rejects is reported exactly
    once, at the first check that fails, and keeps its name, URLs,
    rotation and vertical flip. *)
Theorem Validate_effects (self : WebcamSettingInput) :
  let '(ok, self', sent) := Validate self in
  in_Name self' = in_Name self
  ∧ in_SnapshotUrl self' = in_SnapshotUrl self
  ∧ in_StreamUrl self' = in_StreamUrl self
  ∧ in_Rotation self' = in_Rotation self
  ∧ (if ok
     then sent = []
          ∧ in_FlipH self' = (λ v, VBool (truthy v)) <$> in_FlipH self
          ∧ in_FlipV self' = (λ v, VBool (truthy v)) <$> in_FlipV self
     else (∃ msg, sent = [(LError, msg)]) ∧ in_FlipV self' = in_FlipV self).
Proof.
  unfold Validate.
  destruct (none_or_empty (in_Name self)); [repeat split; eauto|].
  destruct (match in_Rotation self with Some _ => _ | None => _ end);
    [repeat split; eauto|].
  destruct (_ && _); [repeat split; eauto|].
  destruct (in_FlipH self) as [h|] eqn:Eh; [|repeat split; eauto].
  cbn [set_FlipH in_FlipV].
  destruct (in_FlipV self) as [v|] eqn:Ev; cbn; repeat split; eauto.
Qed.

(** ** The camera source of OctoPrint *)





(** A snapshot URL that is not a text makes the camera source raise;
    [ListWebcams] turns that into no camera at all. *)
Lemma octoprint_config_bad_snapshot (global_get : OctoPrintSettings) (b : bool) :
  global_get ["webcam"; "snapshot"] = Some (VBool b) →
  OctoPrint_GetWebcamConfig (Some global_get) = Raise TypeError.
Proof. intros H. unfold OctoPrint_GetWebcamConfig. cbn zeta. now rewrite H. Qed.

Lemma resolved_camera_is_listed_witness :
  ∃ a, WebcamPlatformHelperInterface (Examples.two_cameras None) = Ret (Some a)
       ∧ Examples.cam_back ∈ a.
Proof.
  apply (proj1 (resolved_camera_is_listed (Examples.two_cameras None) (Some "Back"))).
  reflexivity.
Defined.

(** ** More on the JPEG header repair *)

Lemma same_outside_refl (p : nat) (buf : list byte) : same_outside p buf buf.
Proof. repeat split. Qed.

Lemma same_outside_trans (p : nat) (a b c : list byte) :
  same_outside p a b → same_outside p b c → same_outside p a c.
Proof. intros (? & ? & ?) (? & ? & ?). repeat split; congruence. Qed.

Lemma same_outside_insert (p k : nat) (l : list byte) (v : byte) :
  (p ≤ k)%nat → (k < p + 5)%nat → same_outside p l (<[k := v]> l).
Proof.
  intros Hle Hlt. repeat split.
  - apply length_insert.
  - now apply take_insert_ge.
  - now apply drop_insert_lt.
Qed.

Lemma store_if_zero_frame (l l' : list byte) (k p : nat) (v : byte) :
  store_if_zero l k v = Ret l' → (p ≤ k)%nat → (k < p + 5)%nat →
  same_outside p l l'.
Proof.
  unfold store_if_zero. destruct (Bytes.getitem l k) as [b|]; cbn; [|discriminate].
  intros [= <-] Hle Hlt. destruct (Byte.eqb b x00).
  - now apply same_outside_insert.
  - apply same_outside_refl.
Qed.

Lemma clear_if_set_frame (l l' : list byte) (k p : nat) :
  clear_if_set l k = Ret l' → (p ≤ k)%nat → (k < p + 5)%nat →
  same_outside p l l'.
Proof.
  unfold clear_if_set. destruct (Bytes.getitem l k) as [b|]; cbn; [|discriminate].
  intros [= <-] Hle Hlt. destruct (negb (Byte.eqb b x00)).
  - now apply same_outside_insert.
  - apply same_outside_refl.
Qed.

Lemma repair_identifier_frame (buf arr : list byte) (p : nat) :
  repair_identifier buf p = Ret (Some arr) → same_outside p buf arr.
Proof.
  unfold repair_identifier.
  destruct (needs_changes buf p) as [[|]|]; cbn; try discriminate.
  destruct (store_if_zero buf p x4a) as [l1|] eqn:E1; cbn; [|discriminate].
  destruct (store_if_zero l1 (p + 1) x46) as [l2|] eqn:E2; cbn; [|discriminate].
  destruct (store_if_zero l2 (p + 2) x49) as [l3|] eqn:E3; cbn; [|discriminate].
  destruct (store_if_zero l3 (p + 3) x46) as [l4|] eqn:E4; cbn; [|discriminate].
  destruct (clear_if_set l4 (p + 4)) as [l5|] eqn:E5; cbn; [|discriminate].
  intros [= <-].
  apply (same_outside_trans p buf l1); [apply (store_if_zero_frame _ _ _ _ _ E1); lia|].
  apply (same_outside_trans p l1 l2); [apply (store_if_zero_frame _ _ _ _ _ E2); lia|].
  apply (same_outside_trans p l2 l3); [apply (store_if_zero_frame _ _ _ _ _ E3); lia|].
  apply (same_outside_trans p l3 l4); [apply (store_if_zero_frame _ _ _ _ _ E4); lia|].
  apply (clear_if_set_frame _ _ _ _ E5); lia.
Qed.

(** A rewrite happens in the identifier of the APP0 segment the walk
    stops at, four bytes after its marker. *)
Lemma walk_frame (fuel : nat) (buf arr : list byte) (pos : nat) :
  walk fuel buf pos = Rewritten arr →
  ∃ p, (pos + 4 ≤ p)%nat ∧ same_outside p buf arr.
Proof.
  revert pos. induction fuel as [|fuel IH]; intros pos.
  - cbn [walk]. destruct (negb _); discriminate.
  - rewrite walk_S.
    destruct (negb _); [discriminate|].
    destruct (_ <=? _)%nat; [discriminate|].
    destruct (Bytes.getitem buf pos) as [marker|]; [|discriminate].
    destruct (negb _); [discriminate|].
    destruct (Bytes.getitem buf (pos + 1)) as [segmentType|]; [|discriminate].
    destruct (Byte.eqb segmentType xda); [discriminate|].
    destruct (Byte.eqb segmentType xe0).
    + destruct (repair_identifier buf (pos + 4)) as [[bufArray|]|] eqn:E;
        try discriminate.
      intros [= <-]. exists (pos + 4)%nat. split; [lia|].
      now apply repair_identifier_frame.
    + destruct (segment_length buf (pos + 2)) as [segLen|]; [|discriminate].
      intros H. destruct (IH _ H) as (p & Hp & Hsame).
      exists p. split; [lia | exact Hsame].
Qed.

(** X11.  The header repair never changes the size of the image, and what
    it changes lies within five bytes that start at offset 6 or later:
    the bytes before them (the SOI marker and the segments up to the
    identifier) and the bytes after them are kept. *)
Theorem jpeg_repair_is_local (buf : list byte) :
  length (ensured_body buf) = length buf
  ∧ ∃ p, (6 ≤ p)%nat
         ∧ take p (ensured_body buf) = take p buf
         ∧ drop (p + 5) (ensured_body buf) = drop (p + 5) buf.
Proof.
  unfold ensured_body.
  destruct (scan_jpeg buf) as [| |arr|e] eqn:E;
    try (split; [reflexivity | exists 6%nat; repeat split; lia]).
  unfold scan_jpeg in E.
  destruct buf as [|b0 [|b1 t]]; try discriminate.
  destruct (_ || _); [discriminate|].
  destruct (walk_frame _ _ _ _ E) as (p & Hp & Hlen & Htake & Hdrop).
  split; [exact Hlen|]. exists p. repeat split; [lia | exact Htake | exact Hdrop].
Qed.

(** X12.  The walk gives the buffer back as it is when it comes to a
    position where less than two bytes are left, where the byte is not
    FF, or where the marker is the start of scan: an APP0 segment after
    the start of scan is not touched. *)
Theorem jpeg_walk_gives_up (buf : list byte) (pos : nat) :
  visits buf pos →
  (length buf ≤ pos + 1)%nat
  ∨ (∃ b, buf !! pos = Some b ∧ b ≠ xff)
  ∨ (buf !! pos = Some xff ∧ buf !! (pos + 1)%nat = Some xda) →
  ensured_body buf = buf.
Proof.
  intros Hvis Hstop.
  assert (Hwalk : walk (length buf) buf 2 = Unchanged).
  { destruct (walk_visits buf pos Hvis) as [fuel [Hfuel ->]].
    destruct fuel as [|fuel].
    - cbn [walk]. destruct (Nat.ltb_spec pos (length buf)); [lia | reflexivity].
    - rewrite walk_S.
      destruct (negb _); [reflexivity|].
      destruct Hstop as [Hshort|[(b & Hb & Hne)|(Hff & Hda)]].
      + destruct (Nat.leb_spec (length buf) (pos + 1)); [reflexivity | lia].
      + destruct (_ <=? _)%nat; [reflexivity|].
        unfold Bytes.getitem. rewrite Hb.
        now rewrite (byte_eqb_neq _ _ Hne).
      + destruct (_ <=? _)%nat; [reflexivity|].
        unfold Bytes.getitem. rewrite Hff, Hda. reflexivity. }
  unfold ensured_body, scan_jpeg.
  destruct buf as [|b0 [|b1 t]]; try reflexivity.
  destruct (_ || _); [reflexivity|].
  now rewrite Hwalk.
Qed.

Lemma jpeg_walk_gives_up_witness :
  ensured_body [xff; xd8; xff; xda; x00; x02; xff; xe0; x00; x10;
                x00; x00; x00; x00; x00; x00]
  = [xff; xd8; xff; xda; x00; x02; xff; xe0; x00; x10;
     x00; x00; x00; x00; x00; x00].
Proof.
  apply (jpeg_walk_gives_up _ 2%nat).
  - constructor.
  - right. right. split; reflexivity.
Defined.

(** X13.  The walk over the segments always comes to an end: every round
    moves at least two bytes forward, also over a segment that gives its
    length as zero, so the rounds a buffer allows are never used up. *)
Theorem jpeg_walk_terminates (buf : list byte) (pos : nat) :
  walk (length buf) buf pos ≠ OutOfFuel ∧ scan_jpeg buf ≠ OutOfFuel.
Proof. split; [apply walk_fuel; lia | apply scan_jpeg_terminates]. Qed.

Lemma same_outside_getitem (p : nat) (buf arr : list byte) (k : nat) :
  same_outside p buf arr → (k < p)%nat →
  Bytes.getitem arr k = Bytes.getitem buf k.
Proof.
  intros (_ & Htake & _) Hk. unfold Bytes.getitem.
  assert (H : take p arr !! k = take p buf !! k) by now rewrite Htake.
  rewrite !lookup_take in H. destruct (decide (k < p)%nat); [|lia].
  now rewrite H.
Qed.

Lemma or_default_idem (b v : byte) :
  v ≠ x00 → or_default (or_default b v) v = or_default b v.
Proof.
  intros Hv. unfold or_default.
  destruct (Byte.eqb b x00) eqn:E; [|now rewrite E].
  now rewrite (byte_eqb_neq _ _ Hv).
Qed.

(** A rewritten identifier has a zero in its fifth byte, which is one of
    the conditions of [needsChanges]: it is rewritten again, to itself. *)
Lemma repair_identifier_idem_0 (l l' : list byte) :
  repair_identifier l 0 = Ret (Some l') → repair_identifier l' 0 = Ret (Some l').
Proof.
  destruct l as [|i0 [|i1 [|i2 [|i3 [|i4 rest]]]]];
    try (unfold repair_identifier, needs_changes, is_zero_at, is_nonzero_at,
           store_if_zero, clear_if_set, Bytes.getitem; cbn;
         repeat (match goal with
                 | |- context [Byte.eqb ?b x00] => destruct (Byte.eqb b x00); cbn
                 end);
         discriminate).
  intros H.
  assert (Hnc : i0 = x00 ∨ i1 = x00 ∨ i2 = x00 ∨ i3 = x00 ∨ i4 = x00
                ∨ (∃ i5 rest', rest = i5 :: rest' ∧ i5 ≠ x00)).
  { destruct (Byte.byte_eq_dec i0 x00) as [|H0]; [tauto|].
    destruct (Byte.byte_eq_dec i1 x00) as [|H1]; [tauto|].
    destruct (Byte.byte_eq_dec i2 x00) as [|H2]; [tauto|].
    destruct (Byte.byte_eq_dec i3 x00) as [|H3]; [tauto|].
    destruct (Byte.byte_eq_dec i4 x00) as [|H4]; [tauto|].
    do 5 right.
    destruct rest as [|i5 rest'].
    - destruct (repair_identifier_conformant i0 i1 i2 i3 i4 [] H0 H1 H2 H3 H4)
        as [E|E]; [now left | | ]; rewrite E in H; discriminate.
    - destruct (Byte.byte_eq_dec i5 x00) as [->|H5]; [|now eauto].
      destruct (repair_identifier_conformant i0 i1 i2 i3 i4 (x00 :: rest')
                  H0 H1 H2 H3 H4) as [E|E]; [right; eauto | | ];
        rewrite E in H; discriminate. }
  rewrite (repair_identifier_nonconformant _ _ _ _ _ _ Hnc) in H.
  injection H as <-.
  rewrite repair_identifier_nonconformant by tauto.
  now rewrite !or_default_idem by discriminate.
Qed.

Lemma repair_identifier_idem (buf arr : list byte) (p : nat) :
  repair_identifier buf p = Ret (Some arr) →
  repair_identifier arr p = Ret (Some arr).
Proof.
  intros H.
  assert (Hp : (p ≤ length buf)%nat).
  { destruct (Nat.le_gt_cases p (length buf)) as [|Hgt]; [assumption|].
    exfalso. revert H.
    unfold repair_identifier, needs_changes, is_zero_at, Bytes.getitem.
    rewrite (lookup_ge_None_2 buf p) by lia. discriminate. }
  assert (Hlen : length (take p buf) = p) by (rewrite length_take; lia).
  assert (Hshift : ∀ pre l : list byte,
             repair_identifier (pre ++ l)%list (length pre) = Ret (Some arr) →
             repair_identifier arr (length pre) = Ret (Some arr)).
  { intros pre l. rewrite repair_identifier_shift.
    destruct (repair_identifier l 0) as [[l'|]|] eqn:E; try discriminate.
    intros [= <-]. rewrite repair_identifier_shift.
    now rewrite (repair_identifier_idem_0 _ _ E). }
  rewrite <- Hlen. apply (Hshift (take p buf) (drop p buf)).
  now rewrite take_drop, Hlen.
Qed.

Lemma walk_idem (fuel : nat) (buf arr : list byte) (pos : nat) :
  walk fuel buf pos = Rewritten arr → walk fuel arr pos = Rewritten arr.
Proof.
  revert pos. induction fuel as [|fuel IH]; intros pos H.
  - cbn [walk] in H. destruct (negb _); discriminate.
  - destruct (walk_frame _ _ _ _ H) as (p & Hp & Hsame).
    pose proof Hsame as (Hlen & _).
    revert H. rewrite !walk_S. unfold segment_length.
    rewrite Hlen.
    rewrite !(same_outside_getitem p buf arr) by (assumption || lia).
    destruct (negb _); [discriminate|].
    destruct (_ <=? _)%nat; [discriminate|].
    destruct (Bytes.getitem buf pos) as [marker|]; [|discriminate].
    destruct (negb _); [discriminate|].
    destruct (Bytes.getitem buf (pos + 1)) as [segmentType|]; [|discriminate].
    destruct (Byte.eqb segmentType xda); [discriminate|].
    destruct (Byte.eqb segmentType xe0).
    + destruct (repair_identifier buf (pos + 4)) as [[bufArray|]|] eqn:E;
        try discriminate.
      intros [= ->]. now rewrite (repair_identifier_idem _ _ _ E).
    + destruct (Bytes.getitem buf (pos + 2)) as [hi|]; [|discriminate].
      destruct (Bytes.getitem buf (pos + 2 + 1)) as [lo|]; [|discriminate].
      cbn. apply IH.
Qed.

Lemma scan_jpeg_idem (buf arr : list byte) :
  scan_jpeg buf = Rewritten arr → scan_jpeg arr = Rewritten arr.
Proof.
  unfold scan_jpeg. intros H.
  destruct buf as [|b0 [|b1 t]]; try discriminate.
  destruct (_ || _) eqn:Esoi; [discriminate|].
  destruct (walk_frame _ _ _ _ H) as (p & Hp & Hsame).
  pose proof Hsame as (Hlen & _).
  pose proof (same_outside_getitem _ _ _ 0%nat Hsame ltac:(lia)) as H0.
  pose proof (same_outside_getitem _ _ _ 1%nat Hsame ltac:(lia)) as H1.
  destruct arr as [|a0 [|a1 t']]; try discriminate.
  cbn in H0, H1. injection H0 as ->. injection H1 as ->.
  rewrite Esoi, Hlen. exact (walk_idem _ _ _ _ H).
Qed.

(** X14.  Repairing is idempotent: a body that went through the header
    repair comes out of a second repair as it is. *)
Theorem jpeg_repair_idempotent (buf : list byte) :
  ensured_body (ensured_body buf) = ensured_body buf.
Proof.
  unfold ensured_body at 2 3.
  destruct (scan_jpeg buf) as [| |arr|e] eqn:E;
    try (unfold ensured_body; now rewrite E).
  unfold ensured_body. now rewrite (scan_jpeg_idem _ _ E).
Qed.

(** X15.  A buffer the repair has rewritten is not taken as conformant
    by a later scan: the fifth identifier byte is now zero, which
    [needsChanges] counts as missing, so the scan copies and stores the
    body again, with the same bytes. *)
Theorem jpeg_rewritten_is_rewritten_again (buf arr : list byte) :
  scan_jpeg buf = Rewritten arr → scan_jpeg arr = Rewritten arr.
Proof. apply scan_jpeg_idem. Qed.

Lemma jpeg_rewritten_is_rewritten_again_witness :
  scan_jpeg [xff; xd8; xff; xe0; x00; x10; x00; x00; x00; x00; x00; x00]
  = Rewritten [xff; xd8; xff; xe0; x00; x10; x4a; x46; x49; x46; x00; x00]
  ∧ scan_jpeg [xff; xd8; xff; xe0; x00; x10; x4a; x46; x49; x46; x00; x00]
    = Rewritten [xff; xd8; xff; xe0; x00; x10; x4a; x46; x49; x46; x00; x00].
Proof.
  split; [reflexivity|].
  apply (jpeg_rewritten_is_rewritten_again
           [xff; xd8; xff; xe0; x00; x10; x00; x00; x00; x00; x00; x00]).
  reflexivity.
Defined.

(** ** More on the missing-slash fix *)

Lemma substring_app_l (a b : string) (j n : nat) :
  (j + n ≤ String.length a)%nat →
  substring j n (a ++ b) = substring j n a.
Proof.
  intros H. apply get_correct. intros k.
  destruct (Nat.lt_ge_cases k n) as [Hk|Hk].
  - rewrite !substring_correct1 by assumption.
    symmetry. apply append_correct1. lia.
  - now rewrite !substring_correct2 by assumption.
Qed.

Lemma get_app_r (a b : string) (k : nat) :
  String.get (String.length a + k) (a ++ b) = String.get k b.
Proof. rewrite Nat.add_comm. symmetry. apply append_correct2. Qed.

Lemma substring_split (s : string) (n : nat) :
  (n ≤ String.length s)%nat →
  s = substring 0 n s ++ substring n (String.length s - n) s.
Proof.
  revert n. induction s as [|c s IH]; intros [|n] H; cbn in *;
    try reflexivity; try lia.
  - now rewrite substring_all.
  - change (String c s = String c (substring 0 n s ++ substring n (String.length s - n) s)).
    f_equal. apply IH. lia.
Qed.

Lemma substring_0_length (s : string) (n : nat) :
  (n ≤ String.length s)%nat → String.length (substring 0 n s) = n.
Proof.
  revert n. induction s as [|c s IH]; intros [|n] H; cbn in *;
    try reflexivity; try lia.
  f_equal. apply IH. lia.
Qed.










(** ** More on the frame extraction *)

Lemma close_closed (r : Response) : closed r = true → close r = r.
Proof. destruct r; cbn; now intros ->. Qed.

Lemma finish_frame_some (url : string) (headerStrSize frameSizeInt : Z)
    (contentType : ustr) (dataBuffer : list byte) (st : ExtState)
    (res : HttpResult) :
  (finish_frame url headerStrSize frameSizeInt contentType dataBuffer st).1
  = Ret (Some res) →
  ∃ (r' : Response) (image : list byte),
    res = {| Result := Some r'; Url := url; Success := true;
             FullBodyBuffer := Some image |}
    ∧ status_code r' = 200
    ∧ headers r' = [("content-type", contentType);
                    ("content-length", U.str (Bytes.len image))]
    ∧ closed r' = true
    ∧ ext_response
        (finish_frame url headerStrSize frameSizeInt contentType dataBuffer st).2
      = r'.
Proof.
  unfold finish_frame, mbind, Ext_bind, mret, Ext_ret, update_response, sentry,
    get_response.
  cbn -[Bytes.slice_to Bytes.slice_from Bytes.len].
  destruct (negb (Bytes.len _ =? _)); cbn -[Bytes.slice_to Bytes.slice_from Bytes.len];
    [discriminate|].
  destruct (negb (Bytes.len _ =? _)); cbn -[Bytes.slice_to Bytes.slice_from Bytes.len];
    intros [= <-]; eexists _, _; repeat split.
Qed.

Lemma frame_from_response_some (url : string) (st : ExtState) (res : HttpResult) :
  (frame_from_response url st).1 = Ret (Some res) →
  ∃ (r' : Response) (contentType : ustr) (image : list byte),
    res = {| Result := Some r'; Url := url; Success := true;
             FullBodyBuffer := Some image |}
    ∧ status_code r' = 200
    ∧ headers r' = [("content-type", contentType);
                    ("content-length", U.str (Bytes.len image))]
    ∧ closed r' = true
    ∧ ext_response (frame_from_response url st).2 = r'.
Proof.
  unfold frame_from_response, mbind, Ext_bind, mret, Ext_ret, get_response,
    raw_read, lift, sentry.
  cbn -[Bytes.decode U.find U.split scan_headers finish_frame Bytes.len].
  destruct (isMultipartStream _); cbn -[Bytes.decode U.find U.split scan_headers finish_frame Bytes.len];
    [|discriminate].
  destruct (raw _ _ 300) as [d| |e];
    cbn -[Bytes.decode U.find U.split scan_headers finish_frame Bytes.len];
    try discriminate.
  destruct (U.find _ _ =? -1);
    cbn -[Bytes.decode U.find U.split scan_headers finish_frame Bytes.len];
    [discriminate|].
  destruct (scan_headers _ _) as [[frameSizeInt contentType]|e];
    cbn -[Bytes.decode U.find U.split scan_headers finish_frame Bytes.len];
    [|discriminate].
  destruct (frameSizeInt =? 0), contentType as [contentType|];
    cbn -[Bytes.decode U.find U.split scan_headers finish_frame Bytes.len];
    try discriminate.
  destruct (_ >? 0);
    cbn -[Bytes.decode U.find U.split scan_headers finish_frame Bytes.len].
  - destruct (raw _ _ _) as [d'| |e];
      cbn -[Bytes.decode U.find U.split scan_headers finish_frame Bytes.len];
      try discriminate.
    intros H. destruct (finish_frame_some _ _ _ _ _ _ _ H) as (r' & image & ?).
    now exists r', contentType, image.
  - intros H. destruct (finish_frame_some _ _ _ _ _ _ _ H) as (r' & image & ?).
    now exists r', contentType, image.
Qed.

(** The shape of every frame the extraction returns. *)
Lemma extraction_some_shape (C : Collaborators) (url : string)
    (res : HttpResult) :
  returned (_GetSnapshotFromStream C url) = Ret (Some res) →
  ∃ (r' : Response) (contentType : ustr) (image : list byte),
    res = {| Result := Some r'; Url := url; Success := true;
             FullBodyBuffer := Some image |}
    ∧ status_code r' = 200
    ∧ headers r' = [("content-type", contentType);
                    ("content-length", U.str (Z.of_nat (length image)))]
    ∧ closed r' = true
    ∧ response_after (_GetSnapshotFromStream C url) = Some r'.
Proof.
  unfold _GetSnapshotFromStream.
  destruct (MakeHttpCall C url) as [octoHttpResult|]; [|discriminate].
  destruct (Result octoHttpResult) as [response|]; [|discriminate].
  destruct (negb _); [discriminate|].
  unfold with_response.
  destruct (frame_from_response url _) as [o st] eqn:E.
  destruct o as [v|e]; cbn; [|discriminate].
  intros [= ->].
  match type of E with
  | frame_from_response _ ?s = _ =>
      pose proof (frame_from_response_some url s res) as H
  end.
  rewrite E in H. cbn in H.
  destruct (H eq_refl) as (r' & contentType & image & Hres & Hst & Hh & Hc & Hr).
  exists r', contentType, image.
  rewrite Hr, (close_closed _ Hc). auto.
Qed.

(** X18.  Whatever frame the extraction returns, its result is
    consistent: the response is the one the HTTP call handed out, now
    closed and of status 200; its headers are exactly a content type and
    a content length, and the content length is the decimal size of the
    body the result carries; the result is marked a success for the URL
    asked. *)
Theorem extraction_result_is_consistent (C : Collaborators) (url : string)
    (res : HttpResult) :
  returned (_GetSnapshotFromStream C url) = Ret (Some res) →
  ∃ (r' : Response) (contentType : ustr) (image : list byte),
    res = {| Result := Some r'; Url := url; Success := true;
             FullBodyBuffer := Some image |}
    ∧ status_code r' = 200
    ∧ headers r' = [("content-type", contentType);
                    ("content-length", U.str (Z.of_nat (length image)))]
    ∧ closed r' = true
    ∧ response_after (_GetSnapshotFromStream C url) = Some r'.
Proof. apply extraction_some_shape. Qed.

Lemma extraction_result_is_consistent_witness :
  let e := _GetSnapshotFromStream
             (Examples.always (Examples.multipart_response Examples.spec_body))
             "http://h/stream" in
  ∃ res, returned e = Ret (Some res)
  ∧ ∃ (r' : Response) (contentType : ustr) (image : list byte),
    res = {| Result := Some r'; Url := "http://h/stream"; Success := true;
             FullBodyBuffer := Some image |}
    ∧ status_code r' = 200
    ∧ headers r' = [("content-type", contentType);
                    ("content-length", U.str (Z.of_nat (length image)))]
    ∧ closed r' = true
    ∧ response_after e = Some r'.
Proof.
  intros e. destruct (returned e) as [[res|]|] eqn:E; try discriminate.
  exists res. split; [reflexivity|].
  apply (extraction_result_is_consistent
           (Examples.always (Examples.multipart_response Examples.spec_body))
           "http://h/stream").
  exact E.
Defined.

(** X19.  An exception inside the extraction never reaches the caller.
    When a read of the stream raises, or when the scan of the part
    headers raises (a content length that is no number), the call
    returns [None], the response is closed, and the last thing sent to
    the telemetry is the entry for that exception. *)
Theorem extraction_swallows_exceptions (C : Collaborators) (url : string)
    (res : HttpResult) (r : Response) :
  MakeHttpCall C url = Some res →
  Result res = Some r →
  status_code r = 200 →
  isMultipartStream (headers r) = true →
  let out := _GetSnapshotFromStream C url in
  let swallowed (e : Exn) : Prop :=
    returned out = Ret None
    ∧ (∃ r', response_after out = Some r' ∧ closed r' = true)
    ∧ last (sent out) = Some (handle_exception e) in
  (∀ e, raw r (delivered r) 300 = ReadRaises e → swallowed e)
  ∧ (∀ d e,
        raw r (delivered r) 300 = ReadData d →
        U.find (Bytes.decode d) endOfAllHeadersMatch ≠ -1 →
        scan_headers (U.split (Bytes.decode d) endOfHeaderMatch) (0, None) = Raise e →
        swallowed e)
  ∧ (∀ d frameSizeInt contentType e,
        raw r (delivered r) 300 = ReadData d →
        U.find (Bytes.decode d) endOfAllHeadersMatch ≠ -1 →
        scan_headers (U.split (Bytes.decode d) endOfHeaderMatch) (0, None)
        = Ret (frameSizeInt, Some contentType) →
        frameSizeInt ≠ 0 →
        let toRead :=
          frameSizeInt + (U.find (Bytes.decode d) endOfAllHeadersMatch + 4)
          - Bytes.len d in
        0 < toRead →
        raw r (delivered r + length d)%nat (Z.to_nat toRead) = ReadRaises e →
        swallowed e).
Proof.
  intros Hcall Hres Hstatus Hmulti out swallowed.
  assert (Hout : ∀ e st,
             frame_from_response url
               {| ext_response := r;
                  ext_log := [(LDebug, "_GetSnapshotFromStream - Trying to get a snapshot using THE STREAM URL")] |}
             = (Raise e, st) →
             swallowed e).
  { intros e st E. unfold swallowed, out, _GetSnapshotFromStream.
    rewrite Hcall, Hres, Hstatus. cbn [Z.eqb negb Pos.eqb].
    unfold with_response. rewrite E. cbn.
    split; [reflexivity|]. split; [eauto|].
    apply last_snoc. }
  split; [|split].
  - intros e Hread. eapply Hout.
    unfold frame_from_response, mbind, Ext_bind, get_response, raw_read.
    cbn. rewrite Hmulti. cbn. rewrite Hread. reflexivity.
  - intros d e Hread Hfind Hscan. eapply Hout.
    unfold frame_from_response, mbind, Ext_bind, get_response, raw_read, lift.
    cbn -[Bytes.decode U.find U.split scan_headers].
    rewrite Hmulti. cbn -[Bytes.decode U.find U.split scan_headers].
    rewrite Hread. cbn -[Bytes.decode U.find U.split scan_headers].
    apply Z.eqb_neq in Hfind. rewrite Hfind, Hscan. reflexivity.
  - intros d frameSizeInt contentType e Hread Hfind Hscan Hsize toRead Hpos Hread2.
    eapply Hout.
    unfold frame_from_response, mbind, Ext_bind, mret, Ext_ret, get_response,
      raw_read, lift, sentry.
    cbn -[Bytes.decode U.find U.split scan_headers Bytes.len finish_frame].
    rewrite Hmulti. cbn -[Bytes.decode U.find U.split scan_headers Bytes.len finish_frame].
    rewrite Hread. cbn -[Bytes.decode U.find U.split scan_headers Bytes.len finish_frame].
    apply Z.eqb_neq in Hfind. rewrite Hfind, Hscan.
    cbn -[Bytes.decode U.find U.split scan_headers Bytes.len finish_frame].
    apply Z.eqb_neq in Hsize. rewrite Hsize.
    cbn -[Bytes.decode U.find U.split scan_headers Bytes.len finish_frame].
    fold toRead.
    replace (toRead >? 0) with true by (symmetry; apply Z.gtb_lt; lia).
    cbn -[Bytes.decode U.find U.split scan_headers Bytes.len finish_frame].
    rewrite Hread2. reflexivity.
Qed.

Lemma extraction_swallows_exceptions_witness :
  let out := _GetSnapshotFromStream (Examples.always Examples.timeout_response)
               "http://h/stream" in
  returned out = Ret None
  ∧ (∃ r', response_after out = Some r' ∧ closed r' = true)
  ∧ last (sent out)
    = Some (LDebug, "_GetSnapshotFromStream got a timeout while reading the stream.").
Proof.
  intros out.
  exact (proj1 (extraction_swallows_exceptions
                  (Examples.always Examples.timeout_response) "http://h/stream"
                  (Examples.result_of "http://h/stream" Examples.timeout_response)
                  Examples.timeout_response
                  eq_refl eq_refl eq_refl eq_refl)
           (ConnectionError "HTTPConnectionPool: Read timed out.") eq_refl).
Defined.

(** ** The transform header *)

Lemma string_app_inv_tail (a b t : string) : a ++ t = b ++ t → a = b.
Proof.
  revert b. induction a as [|x a IH]; intros [|y b] H.
  - reflexivity.
  - exfalso. apply (f_equal String.length) in H.
    rewrite !string_length_app in H. cbn in H. lia.
  - exfalso. apply (f_equal String.length) in H.
    rewrite !string_length_app in H. cbn in H. lia.
  - change (String x (a ++ t) = String y (b ++ t)) in H.
    injection H as -> H. f_equal. now apply IH.
Qed.

Lemma string_of_int_inj (r1 r2 : Z) :
  NilEmpty.string_of_int (Z.to_int r1) = NilEmpty.string_of_int (Z.to_int r2) →
  r1 = r2.
Proof.
  intros H. apply (f_equal NilEmpty.int_of_string) in H.
  rewrite !NilEmpty.isi in H. injection H as H.
  apply (f_equal Z.of_int) in H. now rewrite !DecimalZ.of_to in H.
Qed.

(** X22.  The value of the transform header tells the transform: two
    cameras get the same value only when they agree on both flips and on
    the rotation, and the value is [none] exactly for a camera with no
    flip and no rotation. *)
Theorem transform_header_tells_transform (s1 s2 : WebcamSettingItem) :
  (transform_string s1 = transform_string s2 ↔
   FlipH s1 = FlipH s2 ∧ FlipV s1 = FlipV s2 ∧ Rotation s1 = Rotation s2)
  ∧ (transform_string s1 = "none" ↔
     FlipH s1 = false ∧ FlipV s1 = false ∧ Rotation s1 = 0).
Proof.
  assert (Hinj : transform_string s1 = transform_string s2 →
                 FlipH s1 = FlipH s2 ∧ FlipV s1 = FlipV s2
                 ∧ Rotation s1 = Rotation s2).
  { unfold transform_string.
    destruct (FlipH s1), (FlipV s1), (Z.eqb_spec (Rotation s1) 0) as [E1|E1],
      (FlipH s2), (FlipV s2), (Z.eqb_spec (Rotation s2) 0) as [E2|E2];
      cbn [orb negb];
      try (intros _; repeat split; congruence);
      remember (NilEmpty.string_of_int (Z.to_int (Rotation s1))) as X1 eqn:HX1;
      remember (NilEmpty.string_of_int (Z.to_int (Rotation s2))) as X2 eqn:HX2;
      intros H; cbv in H; try discriminate H;
      injection H as H; change (X1 ++ " " = X2 ++ " ") in H;
      apply string_app_inv_tail in H; subst X1 X2;
      apply string_of_int_inj in H; repeat split; assumption. }
  split; [split; [exact Hinj|]|].
  - intros (Hh & Hv & Hr). unfold transform_string. now rewrite Hh, Hv, Hr.
  - split.
    + unfold transform_string.
      destruct (FlipH s1), (FlipV s1), (Z.eqb_spec (Rotation s1) 0) as [E1|E1];
        cbn [orb negb];
        try (intros _; repeat split; congruence);
        remember (NilEmpty.string_of_int (Z.to_int (Rotation s1))) as X1 eqn:HX1;
        intros H; cbv in H; discriminate H.
    + intros (Hh & Hv & Hr). unfold transform_string. now rewrite Hh, Hv, Hr.
Qed.

(** ** More on snapshot and stream requests *)

(** A result of [_GetSnapshotInternal] always has a response, of
    status 200. *)
Lemma snapshot_internal_some (C : Collaborators) (self : WebcamHelper)
    (cameraName : option string) (res0 : HttpResult) :
  _GetSnapshotInternal C self cameraName = Ret (Some res0) →
  ∃ response, Result res0 = Some response ∧ status_code response = 200.
Proof.
  unfold _GetSnapshotInternal.
  assert (Hstream : match GetWebcamStreamUrl self None with
                    | Some streamUrl => returned (_GetSnapshotFromStream C streamUrl)
                    | None => Ret None
                    end = Ret (Some res0) →
                    ∃ response, Result res0 = Some response
                                ∧ status_code response = 200).
  { destruct (GetWebcamStreamUrl self None) as [streamUrl|]; [|discriminate].
    intros H.
    destruct (extraction_some_shape _ _ _ H) as (r' & ct & image & -> & Hs & _).
    now exists r'. }
  destruct (GetSnapshotUrl self cameraName) as [snapshotUrl|]; [|exact Hstream].
  cbn zeta. destruct (is_ok_200 _) eqn:Eok; [|exact Hstream].
  intros [= E]. rewrite E in Eok. cbn in Eok.
  destruct (Result res0) as [response|]; [|discriminate].
  exists response. split; [reflexivity | now apply Z.eqb_eq].
Qed.

(** X20.  The body of every snapshot [GetSnapshot] returns is what
    [ReadAllContentFromStreamResponse] reads from the response of the
    result, after the JPEG header repair; this holds as well for a frame
    taken from the stream, whose own buffer is replaced.  The response is
    of status 200 and differs from the one read only in the transform
    header, which is that of the camera asked for. *)
Theorem snapshot_body_is_read_from_response (C : Collaborators)
    (self : WebcamHelper) (cameraName : option string) (res : HttpResult) :
  GetSnapshot C self cameraName = Ret (Some res) →
  ∃ (res0 : HttpResult) (response : Response) (buf : list byte)
    (settings : WebcamSettingItem),
    _GetSnapshotInternal C self cameraName = Ret (Some res0)
    ∧ Result res0 = Some response
    ∧ status_code response = 200
    ∧ ReadAllContentFromStreamResponse C response = Some buf
    ∧ _GetWebcamSettingObj self cameraName = Some settings
    ∧ res = {| Result :=
                 Some (set_headers
                         (headers_set (headers response) c_OeWebcamTransformHeaderKey
                            (u (transform_string settings)))
                         response);
               Url := Url res0; Success := Success res0;
               FullBodyBuffer := Some (ensured_body buf) |}.
Proof.
  unfold GetSnapshot.
  destruct (_GetSnapshotInternal C self cameraName) as [[res0|]|e] eqn:E;
    cbn; try discriminate.
  destruct (snapshot_internal_some _ _ _ _ E) as (response & Hres & Hstatus).
  unfold _EnsureJpegHeaderInfo. rewrite Hres.
  destruct (ReadAllContentFromStreamResponse C response) as [buf|] eqn:Eread;
    [|discriminate].
  unfold _AddOeWebcamTransformHeader. cbn [Result SetFullBodyBuffer]. rewrite Hres.
  destruct (_GetWebcamSettingObj self cameraName) as [settings|]; [|discriminate].
  intros [= <-]. exists res0, response, buf, settings.
  repeat split; assumption.
Qed.

Lemma snapshot_body_is_read_from_response_witness :
  let C := {| MakeHttpCall :=
                λ url, Some (Examples.result_of url
                               (Examples.multipart_response Examples.spec_body));
              ReadAllContentFromStreamResponse := λ _, Some [xff; xd8; xff; xd9] |} in
  ∃ res, GetSnapshot C (Examples.two_cameras None) (Some "Back") = Ret (Some res)
         ∧ FullBodyBuffer res = Some [xff; xd8; xff; xd9].
Proof.
  intros C.
  destruct (GetSnapshot C (Examples.two_cameras None) (Some "Back"))
    as [[res|]|] eqn:E; try discriminate.
  exists res. split; [reflexivity|].
  destruct (snapshot_body_is_read_from_response C (Examples.two_cameras None)
              (Some "Back") res E)
    as (res0 & response & buf & settings & _ & _ & _ & Hread & _ & ->).
  cbn in Hread. injection Hread as <-. reflexivity.
Defined.

(** X21.  A stream request is answered with the very result of the HTTP
    call to the stream URL of the camera asked for: nothing but the
    transform header of its response is set, and the answer is [None]
    exactly when the camera has no stream URL or the call gives
    nothing. *)
Theorem stream_request_is_call_result (C : Collaborators) (self : WebcamHelper)
    (cameraName : option string) :
  (GetWebcamStream C self cameraName = Ret None ↔
   ∀ url, GetWebcamStreamUrl self cameraName = Some url → MakeHttpCall C url = None)
  ∧ ∀ res, GetWebcamStream C self cameraName = Ret (Some res) →
      ∃ (settings : WebcamSettingItem) (url : string) (res0 : HttpResult),
        _GetWebcamSettingObj self cameraName = Some settings
        ∧ StreamUrl settings = Some url
        ∧ MakeHttpCall C url = Some res0
        ∧ Url res = Url res0 ∧ Success res = Success res0
        ∧ FullBodyBuffer res = FullBodyBuffer res0
        ∧ Result res
          = (λ response,
               set_headers
                 (headers_set (headers response) c_OeWebcamTransformHeaderKey
                    (u (transform_string settings)))
                 response) <$> Result res0.
Proof.
  unfold GetWebcamStream, _GetWebcamStreamInternal, GetWebcamStreamUrl,
    _AddOeWebcamTransformHeader.
  destruct (_GetWebcamSettingObj self cameraName) as [settings|].
  2: { split; [split; [discriminate | reflexivity] | discriminate]. }
  destruct (StreamUrl settings) as [url|] eqn:Eurl.
  2: { split; [split; [discriminate | reflexivity] | discriminate]. }
  destruct (MakeHttpCall C url) as [res0|] eqn:Ecall.
  2: { split; [split; [intros _ ? [= <-]; exact Ecall | reflexivity] | discriminate]. }
  split.
  - split.
    + destruct (Result res0); discriminate.
    + intros H. specialize (H url eq_refl). congruence.
  - intros res H. exists settings, url, res0.
    destruct (Result res0) as [response|] eqn:Eres; injection H as <-;
      cbn; rewrite ?Eres; cbn; repeat split; auto.
Qed.


(** ** More on the WebRTC translation *)

Lemma lower_substring (s : string) (n m : nat) :
  Py.lower (substring n m s) = substring n m (Py.lower s).
Proof.
  revert n m. induction s as [|c s IH]; intros [|n] [|m]; cbn; try reflexivity.
  - now rewrite IH.
  - apply IH.
  - apply IH.
Qed.

Lemma webrtc_has_no_inner_slash (i : nat) :
  (1 ≤ i)%nat → String.get i "/webrtc" ≠ Some "/"%char.
Proof.
  intros Hi. do 8 (destruct i as [|i]; [first [lia | discriminate]|]).
  discriminate.
Qed.

Lemma stream_has_no_c (k : nat) :
  (6 ≤ k)%nat → String.get k "/stream" ≠ Some "c"%char.
Proof.
  intros Hk. do 8 (destruct k as [|k]; [first [lia | discriminate]|]).
  discriminate.
Qed.

(** What a translation looks like: the URL up to the first [/webrtc] of
    its lower-case form, followed by [/stream]. *)
Lemma detect_webrtc_shape (url url' : string) :
  DetectCameraStreamerWebRTCStreamUrlAndTranslate (Some url) = Ret (Some url') →
  ∃ a, String.index 0 "/webrtc" (Py.lower url) = Some a
       ∧ (a < String.length url)%nat
       ∧ url' = substring 0 a url ++ "/stream".
Proof.
  unfold DetectCameraStreamerWebRTCStreamUrlAndTranslate. cbn zeta.
  unfold Py.find.
  destruct (String.index 0 "/webrtc" (Py.lower url)) as [a|] eqn:Ea;
    [|discriminate].
  replace (Z.of_nat a =? -1) with false by (symmetry; apply Z.eqb_neq; lia).
  destruct (negb _); [discriminate|].
  unfold Py.slice_to, Py.norm_index.
  replace (Z.of_nat a <? 0) with false by (symmetry; apply Z.ltb_ge; lia).
  rewrite Nat2Z.id. intros [= <-].
  exists a. split; [reflexivity|]. split; [|reflexivity].
  rewrite <- lower_length. apply (substring_nonempty_lt _ "/webrtc");
    [exact (index_correct1 _ _ _ _ Ea) | discriminate].
Qed.

(** X24.  The translation is stable: a URL it has produced holds no
    [/webrtc] any more, so translating it again gives [None]. *)
Theorem webrtc_translation_is_stable (url url' : string) :
  DetectCameraStreamerWebRTCStreamUrlAndTranslate (Some url) = Ret (Some url') →
  DetectCameraStreamerWebRTCStreamUrlAndTranslate (Some url') = Ret None.
Proof.
  intros H.
  destruct (detect_webrtc_shape _ _ H) as (a & Ea & Ha & ->).
  pose proof (index_correct2 _ _ _ _ Ea) as Hbefore.
  set (P := substring 0 a (Py.lower url)).
  assert (HP : String.length P = a)
    by (apply substring_0_length; rewrite lower_length; lia).
  assert (Hsplit : Py.lower url
                   = P ++ substring a (String.length (Py.lower url) - a) (Py.lower url))
    by (apply substring_split; rewrite lower_length; lia).
  assert (Hnone : String.index 0 "/webrtc" (P ++ "/stream") = None).
  { apply index_absent. intros j Hsub.
    destruct (Nat.le_gt_cases (j + 7) a) as [Hin|Hover].
    - apply (Hbefore j); [lia | lia |].
      rewrite Hsplit. rewrite substring_app_l by (cbn; lia).
      rewrite substring_app_l in Hsub by (cbn; lia). exact Hsub.
    - destruct (Nat.le_gt_cases a j) as [Hge|Hlt].
      + assert (Hget : String.get 6 (substring j (String.length "/webrtc")
                                       (P ++ "/stream"))
                       = String.get (j - a + 6) "/stream").
        { rewrite substring_correct1 by (cbn; lia).
          replace (6 + j)%nat with (String.length P + (j - a + 6))%nat by lia.
          apply get_app_r. }
        rewrite Hsub in Hget. symmetry in Hget. revert Hget.
        apply stream_has_no_c. lia.
      + assert (Hget : String.get (a - j) (substring j (String.length "/webrtc")
                                             (P ++ "/stream"))
                       = Some "/"%char).
        { rewrite substring_correct1 by (cbn; lia).
          replace (a - j + j)%nat with (String.length P + 0)%nat by lia.
          rewrite get_app_r. reflexivity. }
        rewrite Hsub in Hget. revert Hget. apply webrtc_has_no_inner_slash. lia. }
  unfold DetectCameraStreamerWebRTCStreamUrlAndTranslate. cbn zeta.
  unfold Py.find at 1.
  rewrite lower_app, lower_substring. change (Py.lower "/stream") with "/stream".
  fold P. rewrite Hnone. reflexivity.
Qed.

Lemma webrtc_translation_is_stable_witness :
  DetectCameraStreamerWebRTCStreamUrlAndTranslate (Some "http://h/webcam/stream")
  = Ret None.
Proof.
  apply (webrtc_translation_is_stable "http://h/webcam/WebRTC?x=1").
  reflexivity.
Defined.
